(** * deuce-client: the HTTP client of the Deuce block store

  A shallow embedding of [deuceclient/client/deuce.py] (class
  [DeuceClient]) and of [deuceclient/api/blocks.py] (class [Blocks]),
  with the properties of the client's protocol mapping stated and proved
  over it.

  Python objects that the client receives and mutates (vaults, blocks)
  live in an explicit object store; every client method is a computation
  in a state-and-exception monad over that store, the client's header
  dictionary and the log of the HTTP requests issued so far.  The
  storage service is a function from the request history and the current
  request to a response. *)

From Stdlib Require Import Ascii String ZArith List Lia.
From stdpp Require Import base strings list pretty numbers.

#[local] Set Warnings "-register-all".

Open Scope Z_scope.
Open Scope string_scope.

(** ** Python values *)

(** The values that cross the wire as decoded JSON ([res.json()]) and that
  the client stores or formats without looking at their type: [None],
  booleans, integers, strings, lists and string-keyed dictionaries.
  Floating-point numbers are left out. *)
Inductive pyval : Type :=
| PNone
| PBool (b : bool)
| PInt (n : Z)
| PStr (s : string)
| PList (l : list pyval)
| PDict (d : list (string * pyval)).

Module Py.

Definition quote : ascii := "'"%char.
Definition dquote : ascii := "034"%char.
Definition backslash : ascii := "\"%char.

Definition hex_digit (n : N) : ascii :=
  if (n <? 10)%N then ascii_of_N (48 + n) else ascii_of_N (87 + n).

Fixpoint contains (c : ascii) (s : string) : bool :=
  match s with
  | EmptyString => false
  | String c' s' => if Ascii.eqb c c' then true else contains c s'
  end.

(** One character of [repr] of a [str], for the chosen quote [q].  Bytes
    above 127 are part of a printable code point and are kept. *)
Definition repr_char (q c : ascii) : string :=
  let n := N_of_ascii c in
  if Ascii.eqb c q || Ascii.eqb c backslash then String backslash (String c EmptyString)
  else if (n =? 9)%N then "\t"
  else if (n =? 10)%N then "\n"
  else if (n =? 13)%N then "\r"
  else if (n <? 32)%N || (n =? 127)%N
       then "\x" +:+ String (hex_digit (n / 16)) (String (hex_digit (n mod 16)) EmptyString)
  else String c EmptyString.

Fixpoint repr_chars (q : ascii) (s : string) : string :=
  match s with
  | EmptyString => EmptyString
  | String c s' => repr_char q c +:+ repr_chars q s'
  end.

(** [repr(s)] for a string: single quotes, unless the string has a single
    quote and no double quote. *)
Definition repr_str (s : string) : string :=
  let q := if contains quote s && negb (contains dquote s) then dquote else quote in
  String q (repr_chars q s +:+ String q EmptyString).

(** [repr(v)]. *)
Fixpoint repr (v : pyval) : string :=
  match v with
  | PNone => "None"
  | PBool true => "True"
  | PBool false => "False"
  | PInt n => pretty n
  | PStr s => repr_str s
  | PList l =>
      "[" +:+
      (fix items (l : list pyval) : string :=
         match l with
         | [] => EmptyString
         | x :: l' =>
             repr x +:+ match l' with [] => EmptyString | _ => ", " +:+ items l' end
         end) l +:+ "]"
  | PDict d =>
      "{" +:+
      (fix items (d : list (string * pyval)) : string :=
         match d with
         | [] => EmptyString
         | (k, x) :: d' =>
             repr_str k +:+ ": " +:+ repr x +:+
             match d' with [] => EmptyString | _ => ", " +:+ items d' end
         end) d +:+ "}"
  end.

(** [str(v)], which is also what [format] puts in place of a [{n:}]
    field: a string stands for itself, anything else for its [repr]. *)
Definition str (v : pyval) : string :=
  match v with
  | PStr s => s
  | _ => repr v
  end.

(** [a == b] on the hashable scalars, as a dict compares its keys: a
    boolean is the integer 0 or 1. *)
Definition key_eqb (a b : pyval) : bool :=
  match a, b with
  | PNone, PNone => true
  | PStr x, PStr y => String.eqb x y
  | PInt x, PInt y => Z.eqb x y
  | PBool x, PBool y => Bool.eqb x y
  | PBool x, PInt y | PInt y, PBool x => Z.eqb (if x then 1 else 0) y
  | _, _ => false
  end.

Definition hashable (v : pyval) : bool :=
  match v with
  | PList _ | PDict _ => false
  | _ => true
  end.

(** [v != s] for a string [s]. *)
Definition ne_str (v : pyval) (s : string) : bool :=
  match v with
  | PStr x => negb (String.eqb x s)
  | _ => true
  end.

Fixpoint chars (s : string) : list pyval :=
  match s with
  | EmptyString => []
  | String c s' => PStr (String c EmptyString) :: chars s'
  end.

End Py.

(** ** Dictionaries

  A Python [dict] keeps its keys in insertion order; assigning to a key
  that is present replaces the value where it stands. *)
Module Dict.
Section Ops.
Context {K V : Type} (eqb : K -> K -> bool).

Fixpoint get (k : K) (d : list (K * V)) : option V :=
  match d with
  | [] => None
  | (k', v) :: d' => if eqb k' k then Some v else get k d'
  end.

Definition mem (k : K) (d : list (K * V)) : bool :=
  match get k d with Some _ => true | None => false end.

Fixpoint set (k : K) (v : V) (d : list (K * V)) : list (K * V) :=
  match d with
  | [] => [(k, v)]
  | (k', v') :: d' => if eqb k' k then (k', v) :: d' else (k', v') :: set k v d'
  end.


(** [d.update(e)]: the items of [e] assigned one by one. *)
Definition update (e d : list (K * V)) : list (K * V) :=
  fold_left (fun acc kv => set (fst kv) (snd kv) acc) e d.

End Ops.
End Dict.

(** Dictionaries with string keys. *)
Abbreviation sdict V := (list (string * V)).
Abbreviation sget := (Dict.get String.eqb).
Abbreviation smem := (Dict.mem String.eqb).
Abbreviation sset := (Dict.set String.eqb).

(** ** Exceptions *)

(** The built-in exception classes the client raises or lets through, and
    the classes of [deuceclient/common/errors.py].  All of them derive from
    [Exception]. *)
Inductive exn : Type :=
| RuntimeError (msg : string)
| KeyError (msg : string)
| ValueError (msg : string)
| TypeError (msg : string)
| IndexError (msg : string)
| AttributeError (msg : string)
| InvalidProject
| InvalidVault
| InvalidFiles
| InvalidBlocks
| InvalidStorageBlocks
| ParameterConstraintError.

Inductive outcome (A : Type) : Type :=
| Return (a : A)
| Raise (e : exn).
Arguments Return {A} a.
Arguments Raise {A} e.

(** ** The entity model *)

(** Objects are named by their address in the store. *)
Definition loc := nat.

(** The identifier rules of [deuceclient/common/validation.py], which is
    not among the sources and whose grammars the spec leaves open: each
    rule is taken as given.  It accepts or rejects a string; a rejected
    value raises the error class of its kind. *)
Record Rules : Type := {
  val_project_id : string -> bool;
  val_vault_id : string -> bool;
  val_file_id : string -> bool;
  val_metadata_block_id : string -> bool;
  val_storage_block_id : string -> bool
}.

Inductive block_kind : Type := metadata | storage.

Module Block.

(** Modelled from the spec: class [Block] of [deuceclient/api/block.py],
    which is not among the sources.  A block carries its project and vault
    ids, a block id or a storage id (or both), and the attributes that the
    response mappers fill in; an attribute not yet known is [None]. *)
Record t : Type := mk {
  project_id : string;
  vault_id : string;
  block_id : option string;
  storage_id : option string;
  data : option string;
  block_size : option Z;
  ref_count : option Z;
  ref_modified : option Z;
  block_orphaned : pyval;
  block_type : block_kind
}.

(** Modelled from the spec: the constructor checks the ids against their
    rules (project, vault, then whichever of block id and storage id is
    given); a block has a block id or a storage id, or both. *)
Definition new (R : Rules) (project vault : string) (bid sid : option string)
    (kind : block_kind) : outcome t :=
  if negb (val_project_id R project) then Raise InvalidProject
  else if negb (val_vault_id R vault) then Raise InvalidVault
  else if negb (from_option (val_metadata_block_id R) true bid) then Raise InvalidBlocks
  else if negb (from_option (val_storage_block_id R) true sid) then Raise InvalidStorageBlocks
  else match bid, sid with
       | None, None => Raise (ValueError "a block needs a block id or a storage id")
       | _, _ => Return (mk project vault bid sid None None None None PNone kind)
       end.

(** Modelled from the spec: [len(block)] is the length of the data held,
    0 when there is none. *)
Definition len (b : t) : Z :=
  match data b with
  | Some d => Z.of_nat (String.length d)
  | None => 0
  end.

Definition set_data (d : option string) (b : t) : t :=
  mk (project_id b) (vault_id b) (block_id b) (storage_id b) d (block_size b)
     (ref_count b) (ref_modified b) (block_orphaned b) (block_type b).

Definition set_block_size (n : option Z) (b : t) : t :=
  mk (project_id b) (vault_id b) (block_id b) (storage_id b) (data b) n
     (ref_count b) (ref_modified b) (block_orphaned b) (block_type b).

Definition set_ref_count (n : option Z) (b : t) : t :=
  mk (project_id b) (vault_id b) (block_id b) (storage_id b) (data b) (block_size b)
     n (ref_modified b) (block_orphaned b) (block_type b).

Definition set_ref_modified (n : option Z) (b : t) : t :=
  mk (project_id b) (vault_id b) (block_id b) (storage_id b) (data b) (block_size b)
     (ref_count b) n (block_orphaned b) (block_type b).

Definition set_block_orphaned (o : pyval) (b : t) : t :=
  mk (project_id b) (vault_id b) (block_id b) (storage_id b) (data b) (block_size b)
     (ref_count b) (ref_modified b) o (block_type b).

Definition set_block_id (i : option string) (b : t) : t :=
  mk (project_id b) (vault_id b) i (storage_id b) (data b) (block_size b)
     (ref_count b) (ref_modified b) (block_orphaned b) (block_type b).

Definition set_storage_id (i : option string) (b : t) : t :=
  mk (project_id b) (vault_id b) (block_id b) i (data b) (block_size b)
     (ref_count b) (ref_modified b) (block_orphaned b) (block_type b).

End Block.

Module Blocks.

(** Class [Blocks] of [deuceclient/api/blocks.py]: a [dict] from block id
    to [Block] object, with a marker and the ids of the vault it belongs
    to.  The values are the addresses of the block objects. *)
Record t : Type := mk {
  items : sdict loc;
  marker : option string;
  project_id : string;
  vault_id : string
}.

(** [Blocks(project_id, vault_id)] *)
Definition new (R : Rules) (project vault : string) : outcome t :=
  if negb (val_project_id R project) then Raise InvalidProject
  else if negb (val_vault_id R vault) then Raise InvalidVault
  else Return (mk [] None project vault).

(** [self[key]] *)
Definition getitem (R : Rules) (key : string) (bs : t) : outcome loc :=
  if negb (val_metadata_block_id R key) then Raise InvalidBlocks
  else match sget key (items bs) with
       | Some b => Return b
       | None => Raise (KeyError key)
       end.

(** [self[key] = val]; [val] is the address of a [Block], which the type
    rule and the [isinstance] test let through. *)
Definition setitem (R : Rules) (key : string) (val : loc) (bs : t) : outcome t :=
  if negb (val_metadata_block_id R key) then Raise InvalidBlocks
  else Return (mk (sset key val (items bs)) (marker bs) (project_id bs) (vault_id bs)).

(** [self.marker = value] *)
Definition set_marker (R : Rules) (value : option string) (bs : t) : outcome t :=
  if negb (from_option (val_metadata_block_id R) true value) then Raise InvalidBlocks
  else Return (mk (items bs) value (project_id bs) (vault_id bs)).

(** [self.update(d)]: every entry goes through [setitem]. *)
Fixpoint update (R : Rules) (d : sdict loc) (bs : t) : outcome t :=
  match d with
  | [] => Return bs
  | (k, v) :: d' =>
      match setitem R k v bs with
      | Return bs' => update R d' bs'
      | Raise e => Raise e
      end
  end.


End Blocks.

Module StorageBlocks.

(** Modelled from the spec: class [StorageBlocks] of
    [deuceclient/api/storageblocks.py], which is not among the sources:
    the same collection as [Blocks], every key held to the storage-id
    rule. *)
Record t : Type := mk {
  items : sdict loc;
  marker : option string;
  project_id : string;
  vault_id : string
}.

Definition new (R : Rules) (project vault : string) : outcome t :=
  if negb (val_project_id R project) then Raise InvalidProject
  else if negb (val_vault_id R vault) then Raise InvalidVault
  else Return (mk [] None project vault).

Definition setitem (R : Rules) (key : string) (val : loc) (bs : t) : outcome t :=
  if negb (val_storage_block_id R key) then Raise InvalidStorageBlocks
  else Return (mk (sset key val (items bs)) (marker bs) (project_id bs) (vault_id bs)).

Definition set_marker (R : Rules) (value : option string) (bs : t) : outcome t :=
  if negb (from_option (val_storage_block_id R) true value) then Raise InvalidStorageBlocks
  else Return (mk (items bs) value (project_id bs) (vault_id bs)).

Fixpoint update (R : Rules) (d : sdict loc) (bs : t) : outcome t :=
  match d with
  | [] => Return bs
  | (k, v) :: d' =>
      match setitem R k v bs with
      | Return bs' => update R d' bs'
      | Raise e => Raise e
      end
  end.

End StorageBlocks.

Module File.

(** Modelled from the spec: class [File] of [deuceclient/api/afile.py],
    which is not among the sources.  [offsets] is a plain dictionary from
    offset to block id; its length is the length of the file object. *)
Record t : Type := mk {
  project_id : string;
  vault_id : string;
  file_id : string;
  url : option string;
  offsets : list (pyval * pyval)
}.

Definition new (R : Rules) (project vault fid : string) (u : option string) : outcome t :=
  if negb (val_project_id R project) then Raise InvalidProject
  else if negb (val_vault_id R vault) then Raise InvalidVault
  else if negb (val_file_id R fid) then Raise InvalidFiles
  else Return (mk project vault fid u []).

Definition set_offsets (o : list (pyval * pyval)) (f : t) : t :=
  mk (project_id f) (vault_id f) (file_id f) (url f) o.

(** [len(f)] *)
Definition len (f : t) : Z := Z.of_nat (length (offsets f)).

End File.

Module Files.

(** Modelled from the spec: class [Files] of [deuceclient/api/files.py],
    which is not among the sources: a dictionary from file id to [File],
    every key held to the file-id rule. *)
Record t : Type := mk {
  items : sdict File.t;
  marker : option string;
  project_id : string;
  vault_id : string
}.

Definition new (R : Rules) (project vault : string) : outcome t :=
  if negb (val_project_id R project) then Raise InvalidProject
  else if negb (val_vault_id R vault) then Raise InvalidVault
  else Return (mk [] None project vault).

(** [key in self] *)
Definition contains (key : string) (fs : t) : bool := smem key (items fs).

(** [self[key]] *)
Definition getitem (key : string) (fs : t) : outcome File.t :=
  match sget key (items fs) with
  | Some f => Return f
  | None => Raise (KeyError key)
  end.

Definition setitem (R : Rules) (key : string) (val : File.t) (fs : t) : outcome t :=
  if negb (val_file_id R key) then Raise InvalidFiles
  else Return (mk (sset key val (items fs)) (marker fs) (project_id fs) (vault_id fs)).

End Files.

Inductive vault_status : Type := unknown | valid | invalid | created | deleted.

Module Vault.

(** Modelled from the spec: class [Vault] of [deuceclient/api/vault.py],
    which is not among the sources. *)
Record t : Type := mk {
  project_id : string;
  vault_id : string;
  status : vault_status;
  blocks : Blocks.t;
  storageblocks : StorageBlocks.t;
  files : Files.t;
  statistics : option pyval
}.

(** [Vault(project_id, vault_id)]: the ids are checked, the status is
    unknown and the collections are empty. *)
Definition new (R : Rules) (project vault : string) : outcome t :=
  if negb (val_project_id R project) then Raise InvalidProject
  else if negb (val_vault_id R vault) then Raise InvalidVault
  else Return (mk project vault unknown
                 (Blocks.mk [] None project vault)
                 (StorageBlocks.mk [] None project vault)
                 (Files.mk [] None project vault)
                 None).

Definition set_status (st : vault_status) (v : t) : t :=
  mk (project_id v) (vault_id v) st (blocks v) (storageblocks v) (files v) (statistics v).

Definition set_blocks (b : Blocks.t) (v : t) : t :=
  mk (project_id v) (vault_id v) (status v) b (storageblocks v) (files v) (statistics v).

Definition set_storageblocks (b : StorageBlocks.t) (v : t) : t :=
  mk (project_id v) (vault_id v) (status v) (blocks v) b (files v) (statistics v).

Definition set_files (f : Files.t) (v : t) : t :=
  mk (project_id v) (vault_id v) (status v) (blocks v) (storageblocks v) f (statistics v).

Definition set_statistics (j : option pyval) (v : t) : t :=
  mk (project_id v) (vault_id v) (status v) (blocks v) (storageblocks v) (files v) j.

End Vault.

Module Projects.

(** Modelled from the spec: the collection of the vaults of a project
    ([deuceclient/api/projects.py], which is not among the sources): a
    dictionary from vault id to [Vault] object, every key held to the
    vault-id rule, with a marker.  The values are the addresses of the
    vault objects. *)
Record t : Type := mk {
  items : sdict loc;
  marker : option string;
  project_id : string
}.

Definition contains (key : string) (p : t) : bool := smem key (items p).

Definition getitem (key : string) (p : t) : outcome loc :=
  match sget key (items p) with
  | Some v => Return v
  | None => Raise (KeyError key)
  end.

Definition setitem (R : Rules) (key : string) (val : loc) (p : t) : outcome t :=
  if negb (val_vault_id R key) then Raise InvalidVault
  else Return (mk (sset key val (items p)) (marker p) (project_id p)).

Definition set_marker (R : Rules) (value : option string) (p : t) : outcome t :=
  if negb (from_option (val_vault_id R) true value) then Raise InvalidVault
  else Return (mk (items p) value (project_id p)).

End Projects.

(** ** HTTP *)

Inductive verb : Type := GET | PUT | POST | DELETE | HEAD.

(** What [requests] is given as [data]: raw bytes, the text that
    [json.dumps] makes of a value (a tuple is written as an array), or the
    bytes that [msgpack.packb] makes of a dictionary of block data. *)
Inductive payload : Type :=
| Raw (bytes : string)
| JsonText (v : pyval)
| MsgPack (contents : sdict (option string)).

Record request : Type := mk_request {
  req_verb : verb;
  req_uri : string;
  req_headers : sdict pyval;
  req_data : option payload;
  req_stream : bool
}.

(** A [requests.Response]: [text] and [content] are the body as text and
    as bytes, [json] is what [res.json()] decodes it to ([None] when the
    body is not JSON, where [res.json()] raises [ValueError]). *)
Record response : Type := mk_response {
  status_code : Z;
  res_headers : sdict string;
  text : string;
  content : string;
  json : option pyval
}.

Module Url.

Definition lower_ascii (c : ascii) : ascii :=
  let n := N_of_ascii c in
  if (65 <=? n)%N && (n <=? 90)%N then ascii_of_N (n + 32) else c.

Fixpoint lower (s : string) : string :=
  match s with
  | EmptyString => EmptyString
  | String c s' => String (lower_ascii c) (lower s')
  end.

(** [res.headers[name]]: the header names of a response compare without
    regard to case. *)
Fixpoint header (name : string) (h : sdict string) : option string :=
  match h with
  | [] => None
  | (k, v) :: h' => if String.eqb (lower k) (lower name) then Some v else header name h'
  end.

End Url.

(** What [urllib.parse.urlparse] returns: the six components of a URL;
    [parsed_url[4]] is the query. *)
Module ParseResult.

Record t : Type := mk {
  scheme : string;
  netloc : string;
  path : string;
  params : string;
  query : string;
  fragment : string
}.

(** [parsed_url[i]] *)
Definition getitem (i : Z) (r : t) : outcome string :=
  if Z.eqb i 0 then Return (scheme r)
  else if Z.eqb i 1 then Return (netloc r)
  else if Z.eqb i 2 then Return (path r)
  else if Z.eqb i 3 then Return (params r)
  else if Z.eqb i 4 then Return (query r)
  else if Z.eqb i 5 then Return (fragment r)
  else if Z.eqb i (-1) then Return (fragment r)
  else if Z.eqb i (-2) then Return (query r)
  else if Z.eqb i (-3) then Return (params r)
  else if Z.eqb i (-4) then Return (path r)
  else if Z.eqb i (-5) then Return (netloc r)
  else if Z.eqb i (-6) then Return (scheme r)
  else Raise (IndexError "tuple index out of range").

End ParseResult.

(** Iteration over a decoded value, as a [for] loop or a comprehension
    does it: a list gives its elements, a dictionary its keys, a string
    its characters; nothing else can be iterated. *)
Definition py_iter (v : pyval) : outcome (list pyval) :=
  match v with
  | PList l => Return l
  | PDict d => Return (map (fun kv => PStr (fst kv)) d)
  | PStr s => Return (Py.chars s)
  | _ => Raise (TypeError "object is not iterable")
  end.

(** [a, b = v] *)
Definition py_unpack2 (v : pyval) : outcome (pyval * pyval) :=
  match py_iter v with
  | Raise e => Raise e
  | Return [a; b] => Return (a, b)
  | Return (_ :: _ :: _ :: _) => Raise (ValueError "too many values to unpack (expected 2)")
  | Return _ => Raise (ValueError "not enough values to unpack (expected 2)")
  end.

(** ** The client and its environment *)

(** The authenticator, seen through the two properties the client reads. *)
Record Authentication : Type := {
  AuthToken : string;
  AuthTenantId : string
}.

(** The path builder [deuceclient/api/v1.py], which is not among the
    sources and whose paths the spec leaves open: each function is taken
    as given.  A block is named by its [block_id] or [storage_id]
    attribute, which may be [None]. *)
Record ApiV1 : Type := {
  get_vault_base_path : string;
  get_vault_path : string -> string;
  get_blocks_path : string -> string;
  get_block_path : string -> option string -> string;
  get_files_path : string -> string;
  get_file_path : string -> string -> string;
  get_fileblocks_path : string -> string -> string;
  get_storage_blocks_path : string -> string;
  get_storage_block_path : string -> option string -> string
}.

(** What a [DeuceClient] is built from and what it talks to.
    [command_uri] is the [Uri] property of the base class [Command]
    ([deuceclient/common/command.py], not among the sources): the URI made
    of the host, the scheme flag and the path given to [ReInit].
    [transport] is the storage service behind [requests]: it answers a
    request knowing the requests that came before.  [json_loads] is
    [json.loads] ([None] where it raises [ValueError]).  [urlparse] and
    [parse_qs] are the two functions of the library [urllib.parse] that
    the client calls: [urlparse url] is the six components of [url], or
    the exception that the library raises on a URL it refuses;
    [parse_qs qs] is the dictionary from the names of the fields of a
    query to the lists of their values.  [save_stream res
    output_file chunk_size] is the body of the [try] block of
    [DownloadFile], which writes the streamed body to a local file and
    times it: [None] when it runs through, [Some msg] when it raises an
    exception that prints as [msg]. *)
Record Env : Type := {
  rules : Rules;
  api_v1 : ApiV1;
  command_uri : string -> bool -> string -> string;
  transport : list request -> request -> response;
  json_loads : string -> option pyval;
  urlparse : string -> outcome ParseResult.t;
  parse_qs : string -> sdict (list string);
  save_stream : response -> string -> Z -> option string;
  apihost : string;
  sslenabled : bool;
  authenticator : Authentication
}.


(** [int(s)] for a header value: decimal digits, with an optional sign,
    surrounding white space and single underscores between digits. *)
Module PyInt.

Definition is_space (c : ascii) : bool :=
  let n := N_of_ascii c in ((9 <=? n)%N && (n <=? 13)%N) || (n =? 32)%N.

Definition is_digit (c : ascii) : bool :=
  let n := N_of_ascii c in (48 <=? n)%N && (n <=? 57)%N.

Definition digit_val (c : ascii) : Z := Z.of_N (N_of_ascii c) - 48.

Fixpoint lstrip (l : list ascii) : list ascii :=
  match l with
  | c :: l' => if is_space c then lstrip l' else l
  | [] => []
  end.

Definition strip (l : list ascii) : list ascii := rev (lstrip (rev (lstrip l))).

Fixpoint digits (l : list ascii) (acc : Z) : option Z :=
  match l with
  | [] => Some acc
  | c :: l' =>
      if is_digit c then digits l' (10 * acc + digit_val c)
      else if Ascii.eqb c "_" then
        match l' with
        | d :: _ => if is_digit d then digits l' acc else None
        | [] => None
        end
      else None
  end.

Definition unsigned (l : list ascii) : option Z :=
  match l with
  | c :: _ => if is_digit c then digits l 0 else None
  | [] => None
  end.

Definition parse (s : string) : option Z :=
  match strip (list_ascii_of_string s) with
  | c :: l =>
      if Ascii.eqb c "-" then option_map Z.opp (unsigned l)
      else if Ascii.eqb c "+" then unsigned l
      else unsigned (c :: l)
  | [] => None
  end.

End PyInt.

(** The mutable state a call can see: the vault, block and project
    objects by address, the path and the header dictionary held by the
    client object, and the requests sent so far, oldest first. *)
Record state : Type := mk_state {
  st_vaults : list Vault.t;
  st_blocks : list Block.t;
  st_projects : list Projects.t;
  st_uripath : string;
  st_headers : sdict pyval;
  st_sent : list request
}.

Definition with_vaults (x : list Vault.t) (s : state) : state :=
  mk_state x (st_blocks s) (st_projects s) (st_uripath s) (st_headers s) (st_sent s).

Definition with_blocks (x : list Block.t) (s : state) : state :=
  mk_state (st_vaults s) x (st_projects s) (st_uripath s) (st_headers s) (st_sent s).

Definition with_projects (x : list Projects.t) (s : state) : state :=
  mk_state (st_vaults s) (st_blocks s) x (st_uripath s) (st_headers s) (st_sent s).

Definition with_uripath (x : string) (s : state) : state :=
  mk_state (st_vaults s) (st_blocks s) (st_projects s) x (st_headers s) (st_sent s).

Definition with_headers (x : sdict pyval) (s : state) : state :=
  mk_state (st_vaults s) (st_blocks s) (st_projects s) (st_uripath s) x (st_sent s).

Definition with_sent (x : list request) (s : state) : state :=
  mk_state (st_vaults s) (st_blocks s) (st_projects s) (st_uripath s) (st_headers s) x.

(** ** The monad of client computations

    A computation runs from a state to a returned value or a raised
    exception, and to the state it leaves; what was written before an
    exception stays written. *)
Definition M (A : Type) : Type := state -> outcome A * state.

Definition ret {A} (a : A) : M A := fun s => (Return a, s).

Definition raise {A} (e : exn) : M A := fun s => (Raise e, s).

Definition bind {A B} (m : M A) (k : A -> M B) : M B :=
  fun s =>
    match m s with
    | (Return a, s') => k a s'
    | (Raise e, s') => (Raise e, s')
    end.

Notation "x <- m ;; k" := (bind m (fun x => k))
  (at level 100, m at next level, right associativity).
Notation "m ;;; k" := (bind m (fun _ => k))
  (at level 100, right associativity).

(** A pure step that may raise. *)
Definition lift {A} (o : outcome A) : M A := fun s => (o, s).

(** [try: m  except Exception as ex: h ex] *)
Definition try_except {A} (m : M A) (h : exn -> M A) : M A :=
  fun s =>
    match m s with
    | (Return a, s') => (Return a, s')
    | (Raise e, s') => h e s'
    end.

(** [for x in l: f x] *)
Fixpoint for_each {A} (l : list A) (f : A -> M unit) : M unit :=
  match l with
  | [] => ret tt
  | x :: l' => f x ;;; for_each l' f
  end.

(** [[f x for x in l]] *)
Fixpoint comprehension {A B} (l : list A) (f : A -> M B) : M (list B) :=
  match l with
  | [] => ret []
  | x :: l' => y <- f x ;; ys <- comprehension l' f ;; ret (y :: ys)
  end.

(** *** The object store *)

(** A vault argument is the address of a [Vault]; an address that holds
    none stands for an argument that is not a [Vault] instance, which the
    instance rule of the method refuses with a [TypeError].  The same
    holds of blocks and projects. *)
Definition get_vault (l : loc) : M Vault.t :=
  fun s =>
    match st_vaults s !! l with
    | Some v => (Return v, s)
    | None => (Raise (TypeError "vault must be a Vault instance"), s)
    end.

Definition put_vault (l : loc) (v : Vault.t) : M unit :=
  fun s => (Return tt, with_vaults (<[l := v]> (st_vaults s)) s).

Definition new_vault (v : Vault.t) : M loc :=
  fun s => (Return (length (st_vaults s)), with_vaults (st_vaults s ++ [v])%list s).

Definition get_block (l : loc) : M Block.t :=
  fun s =>
    match st_blocks s !! l with
    | Some b => (Return b, s)
    | None => (Raise (TypeError "block must be a Block instance"), s)
    end.

Definition put_block (l : loc) (b : Block.t) : M unit :=
  fun s => (Return tt, with_blocks (<[l := b]> (st_blocks s)) s).

Definition new_block (b : Block.t) : M loc :=
  fun s => (Return (length (st_blocks s)), with_blocks (st_blocks s ++ [b])%list s).

Definition get_project (l : loc) : M Projects.t :=
  fun s =>
    match st_projects s !! l with
    | Some p => (Return p, s)
    | None => (Raise (TypeError "project must be a Projects instance"), s)
    end.

Definition put_project (l : loc) (p : Projects.t) : M unit :=
  fun s => (Return tt, with_projects (<[l := p]> (st_projects s)) s).

(** [x is not None] *)
Definition not_none {A} (x : option A) : bool :=
  match x with Some _ => true | None => false end.

(** The argument of [VaultExists]: a [Vault] object or the name of one. *)
Inductive vault_or_name : Type :=
| VaultObject (vault : loc)
| VaultName (name : string).

(** ** Class [DeuceClient]

    The [@validate] decorators check the arguments of a method before its
    body runs; the embedding starts at the body, with arguments of the
    types the rules let through.  Logging is left out. *)
Section Client.
Context (E : Env).

(** [self.project_id] *)
Definition project_id : string := AuthTenantId (authenticator E).

(** [self.ReInit(self.sslenabled, path)]: the path of the next request. *)
Definition ReInit (path : string) : M unit :=
  fun s => (Return tt, with_uripath path s).

(** [self.Uri] *)
Definition Uri : M string :=
  fun s => (Return (command_uri E (apihost E) (sslenabled E) (st_uripath s)), s).

(** [self.Headers] *)
Definition Headers : M (sdict pyval) := fun s => (Return (st_headers s), s).

(** [self.__update_headers()] *)
Definition update_headers : M unit :=
  fun s =>
    let h1 := sset "X-Auth-Token" (PStr (AuthToken (authenticator E))) (st_headers s) in
    let h2 := sset "X-Project-ID" (PStr project_id) h1 in
    (Return tt, with_headers h2 s).

(** [headers = {}; headers.update(self.Headers)] *)
Definition copy_headers : M (sdict pyval) :=
  h <- Headers ;; ret (Dict.update String.eqb h []).

(** [requests.<verb>(uri, headers=headers, data=data, stream=stream)] *)
Definition requests (vb : verb) (uri : string) (headers : sdict pyval)
    (data : option payload) (stream : bool) : M response :=
  fun s =>
    let req := mk_request vb uri headers data stream in
    (Return (transport E (st_sent s) req), with_sent (st_sent s ++ [req])%list s).

(** [res.json()] *)
Definition res_json (res : response) : M pyval :=
  match json res with
  | Some j => ret j
  | None => raise (ValueError "No JSON object could be decoded")
  end.

(** [res.headers[name]] *)
Definition res_header (name : string) (res : response) : M string :=
  match Url.header name (res_headers res) with
  | Some v => ret v
  | None => raise (KeyError name)
  end.

(** ['<label>Error ({0:}): {1:}'.format(res.status_code, res.text)] *)
Definition error_text (label : string) (res : response) : string :=
  label +:+ "Error (" +:+ pretty (status_code res) +:+ "): " +:+ text res.

(** The marker carried by the [x-next-batch] header of a listing
    response: [parse_qs(urlparse(res.headers['x-next-batch'])[4])['marker'][0]]
    when the header is there, [None] when it is not. *)
Definition next_batch_marker (res : response) : M (option string) :=
  match Url.header "x-next-batch" (res_headers res) with
  | Some h =>
      parsed_url <- lift (urlparse E h) ;;
      q <- lift (ParseResult.getitem 4 parsed_url) ;;
      let qs := parse_qs E q in
      match sget "marker" qs with
      | Some (m :: _) => ret (Some m)
      | Some [] => raise (IndexError "list index out of range")
      | None => raise (KeyError "marker")
      end
  | None => ret None
  end.

(** *** Vaults *)

(** [d.items()] of a decoded value. *)
Definition py_items (v : pyval) : M (sdict pyval) :=
  match v with
  | PDict d => ret d
  | _ => raise (AttributeError "object has no attribute 'items'")
  end.

(** The method opens with the instance rule on [project]. *)
Definition ListVaults (project : loc) (marker : option string) : M bool :=
  get_project project ;;;
  let path := get_vault_base_path (api_v1 E) in
  match marker with
  | Some m => ReInit (path +:+ "?marker=" +:+ m)
  | None => ReInit path
  end ;;;
  update_headers ;;;
  uri <- Uri ;; h <- Headers ;;
  res <- requests GET uri h None false ;;
  if Z.eqb (status_code res) 200 then
    j <- res_json res ;;
    entries <- py_items j ;;
    for_each entries (fun entry =>
      let vault_name := fst entry in
      p <- get_project project ;;
      if negb (Projects.contains vault_name p) then
        v <- lift (Vault.new (rules E) (Projects.project_id p) vault_name) ;;
        vault <- new_vault v ;;
        p <- get_project project ;;
        p' <- lift (Projects.setitem (rules E) vault_name vault p) ;;
        put_project project p' ;;;
        p <- get_project project ;;
        vault <- lift (Projects.getitem vault_name p) ;;
        v <- get_vault vault ;;
        put_vault vault (Vault.set_status valid v)
      else ret tt) ;;;
    m <- next_batch_marker res ;;
    p <- get_project project ;;
    p' <- lift (Projects.set_marker (rules E) m p) ;;
    put_project project p' ;;;
    ret true
  else
    raise (RuntimeError (error_text "Failed to List Vaults. " res)).

Definition CreateVault (vault_name : string) : M loc :=
  let path := get_vault_path (api_v1 E) vault_name in
  ReInit path ;;;
  update_headers ;;;
  uri <- Uri ;; h <- Headers ;;
  res <- requests PUT uri h None false ;;
  if Z.eqb (status_code res) 201 then
    v <- lift (Vault.new (rules E) project_id vault_name) ;;
    vault <- new_vault v ;;
    v <- get_vault vault ;;
    put_vault vault (Vault.set_status created v) ;;;
    ret vault
  else
    raise (RuntimeError (error_text "Failed to create Vault. " res)).

Definition DeleteVault (vault : loc) : M bool :=
  v <- get_vault vault ;;
  let path := get_vault_path (api_v1 E) (Vault.vault_id v) in
  ReInit path ;;;
  update_headers ;;;
  uri <- Uri ;; h <- Headers ;;
  res <- requests DELETE uri h None false ;;
  if Z.eqb (status_code res) 204 then
    v <- get_vault vault ;;
    put_vault vault (Vault.set_status deleted v) ;;;
    ret true
  else
    raise (RuntimeError (error_text "Failed to delete Vault. " res)).

Definition VaultExists (vault : vault_or_name) : M bool :=
  vault_id <- match vault with
              | VaultObject l => v <- get_vault l ;; ret (Vault.vault_id v)
              | VaultName name => ret name
              end ;;
  let path := get_vault_path (api_v1 E) vault_id in
  ReInit path ;;;
  update_headers ;;;
  uri <- Uri ;; h <- Headers ;;
  res <- requests HEAD uri h None false ;;
  if Z.eqb (status_code res) 204 then
    match vault with
    | VaultObject l => v <- get_vault l ;; put_vault l (Vault.set_status valid v)
    | VaultName _ => ret tt
    end ;;;
    ret true
  else if Z.eqb (status_code res) 404 then
    match vault with
    | VaultObject l => v <- get_vault l ;; put_vault l (Vault.set_status invalid v)
    | VaultName _ => ret tt
    end ;;;
    ret false
  else
    raise (RuntimeError (error_text "Failed to determine if Vault exists. " res)).

Definition GetVault (vault_name : string) : M loc :=
  found <- VaultExists (VaultName vault_name) ;;
  if found then
    v <- lift (Vault.new (rules E) project_id vault_name) ;;
    vault <- new_vault v ;;
    v <- get_vault vault ;;
    put_vault vault (Vault.set_status valid v) ;;;
    ret vault
  else
    raise (RuntimeError ("Failed to find a Vault with the name " +:+ vault_name)).

Definition GetVaultStatistics (vault : loc) : M bool :=
  v <- get_vault vault ;;
  let path := get_vault_path (api_v1 E) (Vault.vault_id v) in
  ReInit path ;;;
  update_headers ;;;
  uri <- Uri ;; h <- Headers ;;
  res <- requests GET uri h None false ;;
  if Z.eqb (status_code res) 200 then
    j <- res_json res ;;
    v <- get_vault vault ;;
    put_vault vault (Vault.set_statistics (Some j) v) ;;;
    ret true
  else
    raise (RuntimeError (error_text "Failed to get Vault statistics. " res)).

(** *** Blocks *)

(** A decoded value used as a block id: only a string can pass the rule. *)
Definition as_block_id (v : pyval) : M string :=
  match v with
  | PStr s => ret s
  | _ => raise InvalidBlocks
  end.

(** The body of the [for] loop of [GetBlockList]: a new block object for
    the entry, stored in the blocks of the vault under its id. *)
Definition GetBlockList_body (vault : loc) (block_entry : pyval) : M string :=
  v <- get_vault vault ;;
  bid <- as_block_id block_entry ;;
  b <- lift (Block.new (rules E) (Vault.project_id v) (Vault.vault_id v)
                       (Some bid) None metadata) ;;
  block <- new_block b ;;
  v <- get_vault vault ;;
  bs <- lift (Blocks.setitem (rules E) bid block (Vault.blocks v)) ;;
  put_vault vault (Vault.set_blocks bs v) ;;;
  ret bid.

Definition GetBlockList (vault : loc) (marker : option string) (limit : option Z)
  : M (list string) :=
  v <- get_vault vault ;;
  let url := get_blocks_path (api_v1 E) (Vault.vault_id v) in
  let url :=
    if not_none marker || not_none limit then
      let url := url +:+ "?" in
      let url :=
        match marker with
        | Some m =>
            let url := url +:+ "marker=" +:+ m in
            if not_none limit then url +:+ "," else url
        | None => url
        end in
      match limit with
      | Some n => url +:+ "limit=" +:+ pretty n
      | None => url
      end
    else url in
  ReInit url ;;;
  update_headers ;;;
  uri <- Uri ;; h <- Headers ;;
  res <- requests GET uri h None false ;;
  if Z.eqb (status_code res) 200 then
    j <- res_json res ;;
    entries <- lift (py_iter j) ;;
    block_ids <- comprehension entries (GetBlockList_body vault) ;;
    m <- next_batch_marker res ;;
    v <- get_vault vault ;;
    bs <- lift (Blocks.set_marker (rules E) m (Vault.blocks v)) ;;
    put_vault vault (Vault.set_blocks bs v) ;;;
    ret block_ids
  else
    raise (RuntimeError (error_text "Failed to get Block list for Vault . " res)).

(** [int(res.headers[name]) if res.headers[name] else 0] *)
Definition int_header (name : string) (res : response) : M Z :=
  x <- res_header name res ;;
  match x with
  | EmptyString => ret 0
  | _ =>
      x <- res_header name res ;;
      match PyInt.parse x with
      | Some n => ret n
      | None => raise (ValueError "invalid literal for int() with base 10")
      end
  end.

(** [None if res.headers[name] == 'None' else res.headers[name]] *)
Definition id_header (name : string) (res : response) : M (option string) :=
  x <- res_header name res ;;
  if String.eqb x "None" then ret None
  else x <- res_header name res ;; ret (Some x).

Definition HeadBlock (vault block : loc) : M loc :=
  v <- get_vault vault ;;
  b <- get_block block ;;
  let url := get_block_path (api_v1 E) (Vault.vault_id v) (Block.block_id b) in
  ReInit url ;;;
  update_headers ;;;
  headers <- copy_headers ;;
  let headers := sset "content-type" (PStr "application/octet-stream") headers in
  uri <- Uri ;;
  res <- requests HEAD uri headers None false ;;
  if Z.eqb (status_code res) 204 then
    n <- int_header "X-Ref-Modified" res ;;
    b <- get_block block ;; put_block block (Block.set_ref_modified (Some n) b) ;;;
    n <- int_header "X-Block-Reference-Count" res ;;
    b <- get_block block ;; put_block block (Block.set_ref_count (Some n) b) ;;;
    n <- int_header "X-Block-Size" res ;;
    b <- get_block block ;; put_block block (Block.set_block_size (Some n) b) ;;;
    i <- id_header "X-Storage-ID" res ;;
    b <- get_block block ;; put_block block (Block.set_storage_id i b) ;;;
    b <- get_block block ;; put_block block (Block.set_block_orphaned (PBool false) b) ;;;
    ret block
  else
    v <- get_vault vault ;;
    b <- get_block block ;;
    raise (RuntimeError
             (error_text ("Failed to Head Block " +:+ Py.str (from_option PStr PNone (Block.block_id b))
                          +:+ " in Vault " +:+ Vault.vault_id v +:+ ":. ") res)).

Definition UploadBlock (vault block : loc) : M bool :=
  v <- get_vault vault ;;
  b <- get_block block ;;
  let url := get_block_path (api_v1 E) (Vault.vault_id v) (Block.block_id b) in
  ReInit url ;;;
  update_headers ;;;
  headers <- copy_headers ;;
  let headers := sset "content-type" (PStr "application/octet-stream") headers in
  b <- get_block block ;;
  let headers := sset "content-length" (PInt (Block.len b)) headers in
  uri <- Uri ;;
  b <- get_block block ;;
  res <- requests PUT uri headers (option_map Raw (Block.data b)) false ;;
  if Z.eqb (status_code res) 201 then ret true
  else raise (RuntimeError (error_text "Failed to upload Block. " res)).

Definition UploadBlocks (vault : loc) (block_ids : list string) : M bool :=
  v <- get_vault vault ;;
  let url := get_blocks_path (api_v1 E) (Vault.vault_id v) in
  ReInit url ;;;
  update_headers ;;;
  headers <- copy_headers ;;
  let headers := sset "Content-Type" (PStr "application/msgpack") headers in
  block_data <- comprehension block_ids (fun block_id =>
    v <- get_vault vault ;;
    block <- lift (Blocks.getitem (rules E) block_id (Vault.blocks v)) ;;
    b <- get_block block ;;
    ret (block_id, Block.data b)) ;;
  let contents := Dict.update String.eqb block_data [] in
  let body := MsgPack contents in
  uri <- Uri ;;
  res <- requests POST uri headers (Some body) false ;;
  if Z.eqb (status_code res) 201 then ret true
  else raise (RuntimeError (error_text "Failed to upload blocks to Vault. " res)).

Definition DeleteBlock (vault block : loc) : M bool :=
  v <- get_vault vault ;;
  b <- get_block block ;;
  let url := get_block_path (api_v1 E) (Vault.vault_id v) (Block.block_id b) in
  ReInit url ;;;
  update_headers ;;;
  uri <- Uri ;; h <- Headers ;;
  res <- requests DELETE uri h None false ;;
  if Z.eqb (status_code res) 204 then ret true
  else raise (RuntimeError (error_text "Failed to delete Vault. " res)).

(** The local function [do_delete_block] of [DeleteBlocks]. *)
Definition do_delete_block (vault : loc) (block_id : string) : M (string * bool) :=
  try_except
    (v <- get_vault vault ;;
     block <- lift (Blocks.getitem (rules E) block_id (Vault.blocks v)) ;;
     r <- DeleteBlock vault block ;;
     ret (block_id, r))
    (fun ex => ret (block_id, false)).

(** The method opens with the instance rule on [vault]; the rest is the
    list comprehension. *)
Definition DeleteBlocks (vault : loc) (block_ids : list string) : M (list (string * bool)) :=
  get_vault vault ;;;
  comprehension block_ids (fun blockid => do_delete_block vault blockid).

Definition DownloadBlock (vault block : loc) : M bool :=
  v <- get_vault vault ;;
  b <- get_block block ;;
  let url := get_block_path (api_v1 E) (Vault.vault_id v) (Block.block_id b) in
  ReInit url ;;;
  update_headers ;;;
  uri <- Uri ;; h <- Headers ;;
  res <- requests GET uri h None false ;;
  if Z.eqb (status_code res) 200 then
    b <- get_block block ;;
    put_block block (Block.set_data (Some (content res)) b) ;;;
    ret true
  else
    raise (RuntimeError (error_text "Failed to get Block Content for Block Id . " res)).

(** *** Files *)

Definition CreateFile (vault : loc) : M string :=
  v <- get_vault vault ;;
  let url := get_files_path (api_v1 E) (Vault.vault_id v) in
  ReInit url ;;;
  update_headers ;;;
  uri <- Uri ;; h <- Headers ;;
  res <- requests POST uri h None false ;;
  if Z.eqb (status_code res) 201 then
    v <- get_vault vault ;;
    fid <- res_header "x-file-id" res ;;
    location <- res_header "location" res ;;
    new_file <- lift (File.new (rules E) project_id (Vault.vault_id v) fid (Some location)) ;;
    v <- get_vault vault ;;
    fs <- lift (Files.setitem (rules E) (File.file_id new_file) new_file (Vault.files v)) ;;
    put_vault vault (Vault.set_files fs v) ;;;
    ret (File.file_id new_file)
  else
    raise (RuntimeError (error_text "Failed to Create File. " res)).

Definition DeleteFile (vault : loc) (file_id : string) : M bool :=
  v <- get_vault vault ;;
  let url := get_file_path (api_v1 E) (Vault.vault_id v) file_id in
  ReInit url ;;;
  update_headers ;;;
  uri <- Uri ;; h <- Headers ;;
  res <- requests DELETE uri h None false ;;
  if Z.eqb (status_code res) 204 then ret true
  else raise (RuntimeError (error_text "Failed to Delete File. " res)).

Definition DownloadFile (vault : loc) (file_id output_file : string) (chunk_size : Z)
  : M bool :=
  v <- get_vault vault ;;
  let url := get_file_path (api_v1 E) (Vault.vault_id v) file_id in
  ReInit url ;;;
  update_headers ;;;
  uri <- Uri ;; h <- Headers ;;
  res <- requests GET uri h None true ;;
  if Z.eqb (status_code res) 200 then
    match save_stream E res output_file chunk_size with
    | None => ret true
    | Some ex =>
        raise (RuntimeError ("Failed while Downloading File. Error: " +:+ ex +:+ " "))
    end
  else
    raise (RuntimeError (error_text "Failed to Download File. " res)).

Definition FinalizeFile (vault : loc) (file_id : string) : M bool :=
  v <- get_vault vault ;;
  if negb (Files.contains file_id (Vault.files v)) then
    raise (KeyError "file_id must specify a file in the provided Vault")
  else
  let url := get_file_path (api_v1 E) (Vault.vault_id v) file_id in
  ReInit url ;;;
  update_headers ;;;
  headers <- copy_headers ;;
  v <- get_vault vault ;;
  f <- lift (Files.getitem file_id (Vault.files v)) ;;
  let headers := sset "X-File-Length" (PInt (File.len f)) headers in
  uri <- Uri ;;
  res <- requests POST uri headers None false ;;
  if Z.eqb (status_code res) 200 || Z.eqb (status_code res) 204 then ret true
  else
    j <- res_json res ;;
    raise (RuntimeError ("Failed to finalize file. Details: " +:+ Py.str j)).

(** The checks of [AssignBlocksToFile] on an explicit list of
    [(block_id, offset)] pairs, in the order of the list. *)
Fixpoint check_block_ids (vault : loc) (file_id : string)
    (block_ids : list (string * pyval)) : M unit :=
  match block_ids with
  | [] => ret tt
  | (block_id, offset) :: rest =>
      v <- get_vault vault ;;
      f <- lift (Files.getitem file_id (Vault.files v)) ;;
      if negb (Dict.mem Py.key_eqb (PStr (Py.str offset)) (File.offsets f)) then
        raise (KeyError ("block offset " +:+ Py.str offset
                         +:+ " must be assigned in the File"))
      else
      v <- get_vault vault ;;
      f <- lift (Files.getitem file_id (Vault.files v)) ;;
      match Dict.get Py.key_eqb (PStr (Py.str offset)) (File.offsets f) with
      | None => raise (KeyError (Py.repr (PStr (Py.str offset))))
      | Some recorded =>
          if Py.ne_str recorded block_id then
            raise (ValueError ("specified offset " +:+ Py.str offset
                               +:+ " must match the block " +:+ block_id))
          else check_block_ids vault file_id rest
      end
  end.

Definition AssignBlocksToFile (vault : loc) (file_id : string)
    (block_ids : option (list (string * pyval))) : M (list pyval) :=
  v <- get_vault vault ;;
  if negb (Files.contains file_id (Vault.files v)) then
    raise (KeyError "file_id must specify a file in the provided Vault")
  else
  match block_ids with
  | Some ids =>
      if Z.eqb (Z.of_nat (length ids)) 0 then
        raise (ValueError "block_ids must be iterable")
      else check_block_ids vault file_id ids
  | None =>
      v <- get_vault vault ;;
      f <- lift (Files.getitem file_id (Vault.files v)) ;;
      if Z.eqb (Z.of_nat (length (File.offsets f))) 0 then
        raise (ValueError "File must have offsets specified")
      else ret tt
  end ;;;
  v <- get_vault vault ;;
  let url := get_fileblocks_path (api_v1 E) (Vault.vault_id v) file_id in
  ReInit url ;;;
  update_headers ;;;
  block_assignment_data <-
    match block_ids with
    | Some ids => ret (map (fun p => PList [PStr (fst p); snd p]) ids)
    | None =>
        v <- get_vault vault ;;
        f <- lift (Files.getitem file_id (Vault.files v)) ;;
        ret (map (fun item => PList [snd item; fst item]) (File.offsets f))
    end ;;
  uri <- Uri ;; h <- Headers ;;
  res <- requests POST uri h (Some (JsonText (PList block_assignment_data))) false ;;
  if Z.eqb (status_code res) 200 then
    j <- res_json res ;;
    block_list_to_upload <- lift (py_iter j) ;;
    ret block_list_to_upload
  else
    raise (RuntimeError (error_text "Failed to Assign Blocks to the File. " res)).

(** [d[k] = v] on a plain dictionary. *)
Definition dict_setitem (k v : pyval) (d : list (pyval * pyval))
  : outcome (list (pyval * pyval)) :=
  if Py.hashable k then Return (Dict.set Py.key_eqb k v d)
  else Raise (TypeError "unhashable type").

(** The body of the [for] loop of [GetFileBlockList]: the entry is
    unpacked into a block id and an offset, and the block id is recorded
    at the offset in the file object. *)
Definition GetFileBlockList_body (vault : loc) (file_id : string) (entry : pyval)
  : M pyval :=
  pair <- lift (py_unpack2 entry) ;;
  let block_id := fst pair in
  let offset := snd pair in
  v <- get_vault vault ;;
  f <- lift (Files.getitem file_id (Vault.files v)) ;;
  o <- lift (dict_setitem offset block_id (File.offsets f)) ;;
  let f := File.set_offsets o f in
  put_vault vault
    (Vault.set_files
       (Files.mk (sset file_id f (Files.items (Vault.files v)))
                 (Files.marker (Vault.files v))
                 (Files.project_id (Vault.files v))
                 (Files.vault_id (Vault.files v))) v) ;;;
  ret block_id.

Definition GetFileBlockList (vault : loc) (file_id : string) (marker : option string)
    (limit : option Z) : M (list pyval * option string) :=
  v <- get_vault vault ;;
  if negb (Files.contains file_id (Vault.files v)) then
    raise (KeyError "file_id must specify a file in the provided Vault.")
  else
  let url := get_fileblocks_path (api_v1 E) (Vault.vault_id v) file_id in
  let url :=
    if not_none marker || not_none limit then
      let url := url +:+ "?" in
      let url :=
        match marker with
        | Some m =>
            let url := url +:+ "marker=" +:+ m in
            if not_none limit then url +:+ "," else url
        | None => url
        end in
      match limit with
      | Some n => url +:+ "limit=" +:+ pretty n
      | None => url
      end
    else url in
  ReInit url ;;;
  update_headers ;;;
  uri <- Uri ;; h <- Headers ;;
  res <- requests GET uri h None false ;;
  if Z.eqb (status_code res) 200 then
    j <- res_json res ;;
    entries <- lift (py_iter j) ;;
    block_ids <- comprehension entries (GetFileBlockList_body vault file_id) ;;
    next_marker <- next_batch_marker res ;;
    ret (block_ids, next_marker)
  else
    raise (RuntimeError (error_text "Failed to get Block list for File . " res)).

(** *** Block storage *)

(** [str] of an id attribute that may be [None]. *)
Definition str_id (i : option string) : string := Py.str (from_option PStr PNone i).

Definition DownloadBlockStorageData (vault block : loc) : M loc :=
  v <- get_vault vault ;;
  b <- get_block block ;;
  let url := get_storage_block_path (api_v1 E) (Vault.vault_id v) (Block.storage_id b) in
  ReInit url ;;;
  update_headers ;;;
  uri <- Uri ;; h <- Headers ;;
  res <- requests GET uri h None false ;;
  if Z.eqb (status_code res) 200 then
    b <- get_block block ;; put_block block (Block.set_data (Some (content res)) b) ;;;
    n <- int_header "X-Ref-Modified" res ;;
    b <- get_block block ;; put_block block (Block.set_ref_modified (Some n) b) ;;;
    n <- int_header "X-Block-Reference-Count" res ;;
    b <- get_block block ;; put_block block (Block.set_ref_count (Some n) b) ;;;
    i <- res_header "X-Block-ID" res ;;
    b <- get_block block ;; put_block block (Block.set_block_id (Some i) b) ;;;
    ret block
  else
    v <- get_vault vault ;;
    b <- get_block block ;;
    raise (RuntimeError
             (error_text ("Failed to get Content for Storage Block Id: "
                          +:+ str_id (Block.storage_id b) +:+ ", Vault: "
                          +:+ Vault.vault_id v) res)).

Definition DeleteBlockStorage (vault block : loc) : M bool :=
  v <- get_vault vault ;;
  b <- get_block block ;;
  let url := get_storage_block_path (api_v1 E) (Vault.vault_id v) (Block.storage_id b) in
  ReInit url ;;;
  update_headers ;;;
  uri <- Uri ;; h <- Headers ;;
  res <- requests DELETE uri h None false ;;
  if Z.eqb (status_code res) 204 then ret true
  else
    v <- get_vault vault ;;
    b <- get_block block ;;
    raise (RuntimeError
             (error_text ("Failed to delete Block " +:+ str_id (Block.storage_id b)
                          +:+ " from BlockStorage, Vault " +:+ Vault.vault_id v) res)).

(** A decoded value used as a storage id: only a string can pass the rule. *)
Definition as_storage_id (v : pyval) : M string :=
  match v with
  | PStr s => ret s
  | _ => raise InvalidStorageBlocks
  end.

(** The dictionary comprehension of [GetBlockStorageList]: one new block
    object per entry of the response; an id that comes twice keeps its
    place and the later block. *)
Fixpoint storage_blocks_of (vault : loc) (entries : list pyval) (acc : sdict loc)
  : M (sdict loc) :=
  match entries with
  | [] => ret acc
  | storageblockid :: rest =>
      sid <- as_storage_id storageblockid ;;
      v <- get_vault vault ;;
      b <- lift (Block.new (rules E) project_id (Vault.vault_id v) None (Some sid) storage) ;;
      block <- new_block b ;;
      storage_blocks_of vault rest (sset sid block acc)
  end.

Definition GetBlockStorageList (vault : loc) (marker : option string) (limit : option Z)
  : M (list pyval) :=
  v <- get_vault vault ;;
  let url := get_storage_blocks_path (api_v1 E) (Vault.vault_id v) in
  let url :=
    if not_none marker || not_none limit then
      let url := url +:+ "?" in
      let url :=
        match marker with
        | Some m =>
            let url := url +:+ "marker=" +:+ m in
            if not_none limit then url +:+ "&" else url
        | None => url
        end in
      match limit with
      | Some n => url +:+ "limit=" +:+ pretty n
      | None => url
      end
    else url in
  ReInit url ;;;
  update_headers ;;;
  uri <- Uri ;; h <- Headers ;;
  res <- requests GET uri h None false ;;
  if Z.eqb (status_code res) 200 then
    v <- get_vault vault ;;
    block_list <- lift (StorageBlocks.new (rules E) project_id (Vault.vault_id v)) ;;
    j <- res_json res ;;
    entries <- lift (py_iter j) ;;
    blocks <- storage_blocks_of vault entries [] ;;
    block_list <- lift (StorageBlocks.update (rules E) blocks block_list) ;;
    v <- get_vault vault ;;
    sb <- lift (StorageBlocks.update (rules E) (StorageBlocks.items block_list)
                                     (Vault.storageblocks v)) ;;
    put_vault vault (Vault.set_storageblocks sb v) ;;;
    m <- next_batch_marker res ;;
    v <- get_vault vault ;;
    sb <- lift (StorageBlocks.set_marker (rules E) m (Vault.storageblocks v)) ;;
    put_vault vault (Vault.set_storageblocks sb v) ;;;
    j <- res_json res ;;
    lift (py_iter j)
  else
    raise (RuntimeError (error_text "Failed to get Block Storage list for Vault . " res)).

Definition HeadBlockStorage (vault block : loc) : M loc :=
  v <- get_vault vault ;;
  b <- get_block block ;;
  let url := get_storage_block_path (api_v1 E) (Vault.vault_id v) (Block.storage_id b) in
  ReInit url ;;;
  update_headers ;;;
  uri <- Uri ;; h <- Headers ;;
  res <- requests HEAD uri h None false ;;
  if Z.eqb (status_code res) 204 then
    n <- int_header "X-Ref-Modified" res ;;
    b <- get_block block ;; put_block block (Block.set_ref_modified (Some n) b) ;;;
    n <- int_header "X-Block-Reference-Count" res ;;
    b <- get_block block ;; put_block block (Block.set_ref_count (Some n) b) ;;;
    i <- id_header "X-Block-ID" res ;;
    b <- get_block block ;; put_block block (Block.set_block_id i b) ;;;
    n <- int_header "X-Block-Size" res ;;
    b <- get_block block ;; put_block block (Block.set_block_size (Some n) b) ;;;
    x <- res_header "X-Block-Orphaned" res ;;
    o <- match json_loads E (Url.lower x) with
         | Some o => ret o
         | None => raise (ValueError "No JSON object could be decoded")
         end ;;
    b <- get_block block ;; put_block block (Block.set_block_orphaned o b) ;;;
    ret block
  else
    v <- get_vault vault ;;
    b <- get_block block ;;
    raise (RuntimeError
             (error_text ("Failed to head Block " +:+ str_id (Block.storage_id b)
                          +:+ " from BlockStorage, Vault " +:+ Vault.vault_id v) res)).

End Client.

(** * Properties *)

(** ** Vocabulary of the statements *)

(** A computation keeps the component [f] of the state when [f] reads the
    same after it as before, whatever it returns or raises. *)
Definition keeps {A X} (f : state -> X) (m : M A) : Prop :=
  forall s, f (snd (m s)) = f s.

(** The entity model: the vault, block and project objects. *)
Definition entities (s : state) : list Vault.t * list Block.t * list Projects.t :=
  (st_vaults s, st_blocks s, st_projects s).

(** The query of a listing request: the marker first, the limit second,
    [sep] between them when both are given. *)
Definition listing_query (sep : string) (marker : option string) (limit : option Z)
  : string :=
  match marker, limit with
  | Some m, Some n => "marker=" +:+ m +:+ sep +:+ "limit=" +:+ pretty n
  | Some m, None => "marker=" +:+ m
  | None, Some n => "limit=" +:+ pretty n
  | None, None => EmptyString
  end.

(** The block id that a file records at an offset, looked up as
    [AssignBlocksToFile] does it, under [str(offset)]. *)
Definition recorded_at (f : File.t) (offset : pyval) : option pyval :=
  Dict.get Py.key_eqb (PStr (Py.str offset)) (File.offsets f).

(** A pair [(block_id, offset)] agrees with the file: the offset is
    recorded, with that block id. *)
Definition assigned (f : File.t) (p : string * pyval) : Prop :=
  recorded_at f (snd p) = Some (PStr (fst p)).

(** The pairs [(block_id, offset)] of an offsets dictionary, in its order,
    as the value that goes through [json.dumps]. *)
Definition offset_pairs (offsets : list (pyval * pyval)) : pyval :=
  PList (map (fun item => PList [snd item; fst item]) offsets).

(** A vault as [ListVaults] and [GetVault] make it: the ids, status
    [valid], empty collections and no statistics. *)
Definition found_vault (project vault : string) : Vault.t :=
  Vault.mk project vault valid
    (Blocks.mk [] None project vault)
    (StorageBlocks.mk [] None project vault)
    (Files.mk [] None project vault)
    None.

(** The response has no continuation header. *)
Definition no_continuation (res : response) : Prop :=
  Url.header "x-next-batch" (res_headers res) = None.

(** [s] ends with [suffix]. *)
Fixpoint ends_with (suffix s : string) : bool :=
  if String.eqb s suffix then true
  else match s with
       | EmptyString => false
       | String _ s' => ends_with suffix s'
       end.

(** The path of a listing request: the path of the collection, followed
    by a question mark and the query when a marker or a limit is given. *)
Definition listing_path (base sep : string) (marker : option string) (limit : option Z)
  : string :=
  if not_none marker || not_none limit
  then base +:+ "?" +:+ listing_query sep marker limit
  else base.

(** A pair [[block_id, offset]] of a file-block listing, as decoded. *)
Definition offset_entry (p : pyval * pyval) : pyval := PList [fst p; snd p].

Section Vocabulary.
Context (E : Env).

(** The URI of a path, as the client object makes it. *)
Definition uri_of (path : string) : string :=
  command_uri E (apihost E) (sslenabled E) path.

(** The header dictionary of the client after [__update_headers]. *)
Definition auth_headers (s : state) : sdict pyval :=
  sset "X-Project-ID" (PStr (project_id E))
    (sset "X-Auth-Token" (PStr (AuthToken (authenticator E))) (st_headers s)).

(** A request without body, under the client's own headers. *)
Definition plain_request (vb : verb) (path : string) (s : state) : request :=
  mk_request vb (uri_of path) (auth_headers s) None false.

(** The response carries a continuation header, the URL library splits
    the URL that it holds, and the query of that URL has a field [marker]
    whose (first) value is [m]. *)
Definition carries_marker (res : response) (m : string) : Prop :=
  exists url parts rest,
    Url.header "x-next-batch" (res_headers res) = Some url
    /\ urlparse E url = Return parts
    /\ sget "marker" (parse_qs E (ParseResult.query parts)) = Some (m :: rest).

(** [x] is the marker that the response stands for: the marker parameter
    of its continuation when it has one, [None] when it has none. *)
Definition marker_after (res : response) (x : option string) : Prop :=
  (forall m, carries_marker res m -> x = Some m)
  /\ (no_continuation res -> x = None).

(** The continuation of the response, if any, has a marker parameter
    that the rule [ok] accepts. *)
Definition continuation_ok (ok : string -> bool) (res : response) : Prop :=
  no_continuation res \/ exists m, carries_marker res m /\ ok m = true.

(** A well-formed answer to a listing: status 200, a body that is a JSON
    array of the entries [entries], each of them acceptable as [entry_ok]
    says, and a continuation, if any, whose marker the rule [ok] accepts. *)
Definition listing_response {X} (as_json : X -> pyval) (entry_ok : X -> Prop)
    (ok : string -> bool) (entries : list X) (res : response) : Prop :=
  status_code res = 200
  /\ json res = Some (PList (map as_json entries))
  /\ Forall entry_ok entries
  /\ continuation_ok ok res.

(** What the service answers to [req] in state [s]. *)
Definition reply (s : state) (req : request) : response :=
  transport E (st_sent s) req.

(** The state once [req] has gone out for [path]: the object store is as
    it was. *)
Definition after_request (path : string) (req : request) (s : state) : state :=
  with_sent (st_sent s ++ [req])%list (with_headers (auth_headers s) (with_uripath path s)).

(** The deletion of one block of the vault, as [do_delete_block] tries
    it: the block object is looked up under its id in the blocks of the
    vault and handed to [DeleteBlock]. *)
Definition delete_attempt (vault : loc) (block_id : string) : M bool :=
  v <- get_vault vault ;;
  block <- lift (Blocks.getitem (rules E) block_id (Vault.blocks v)) ;;
  DeleteBlock E vault block.

(** [attempted vault s ids results s']: starting in [s], the deletions of
    [ids] were tried one after the other, each from the state its
    predecessor left, ending in [s']; [results] pairs every id with
    [true] when its attempt returned [True] and with [false] when it
    raised. *)
Inductive attempted (vault : loc) :
  state -> list string -> list (string * bool) -> state -> Prop :=
| attempted_nil s : attempted vault s [] [] s
| attempted_done s block_id s1 ids results s' :
    delete_attempt vault block_id s = (Return true, s1) ->
    attempted vault s1 ids results s' ->
    attempted vault s (block_id :: ids) ((block_id, true) :: results) s'
| attempted_failed s block_id e s1 ids results s' :
    delete_attempt vault block_id s = (Raise e, s1) ->
    attempted vault s1 ids results s' ->
    attempted vault s (block_id :: ids) ((block_id, false) :: results) s'.

(** The block that the vault holds under an id, if it holds one: the id
    passes the rule of block ids and is a key of the blocks of the vault. *)
Definition held_block (v : Vault.t) (blocks : list Block.t) (block_id : string)
  : option Block.t :=
  if val_metadata_block_id (rules E) block_id then
    match sget block_id (Blocks.items (Vault.blocks v)) with
    | Some block => blocks !! block
    | None => None
    end
  else None.

(** The best-effort fan-out of a batch deletion, as the spec words it:
    the ids are taken in their order, each on its own.  For an id under
    which the vault holds a block, one DELETE request goes to the path of
    that block, under the headers [headers], and the id succeeded when
    the service answers 204; an id under which the vault holds no block
    did not succeed and no request goes out for it.  Whatever became of
    an id, the next one is taken.  [sent] is the log of the requests so
    far; the result is the pairs of the ids with their success, and the
    log at the end. *)
Fixpoint fan_out (v : Vault.t) (blocks : list Block.t) (headers : sdict pyval)
    (sent : list request) (block_ids : list string)
  : list (string * bool) * list request :=
  match block_ids with
  | [] => ([], sent)
  | block_id :: rest =>
      match held_block v blocks block_id with
      | Some b =>
          let path := get_block_path (api_v1 E) (Vault.vault_id v) (Block.block_id b) in
          let req := mk_request DELETE (uri_of path) headers None false in
          let succeeded := Z.eqb (status_code (transport E sent req)) 204 in
          let '(results, sent') := fan_out v blocks headers (sent ++ [req])%list rest in
          ((block_id, succeeded) :: results, sent')
      | None =>
          let '(results, sent') := fan_out v blocks headers sent rest in
          ((block_id, false) :: results, sent')
      end
  end.

(** A method fails uniformly outside [codes]: a call either sends no
    request, or sends exactly one, and then, when the status of the answer
    is none of [codes], raises a [RuntimeError] whose message ends with
    the status code and the text of the answer, in the form
    [Error (<status>): <text>]. *)
Definition uniform_failure {A} (codes : list Z) (m : M A) : Prop :=
  forall s,
    st_sent (snd (m s)) = st_sent s
    \/ exists req,
         st_sent (snd (m s)) = (st_sent s ++ [req])%list
         /\ (~ In (status_code (reply s req)) codes ->
             exists label,
               fst (m s) = Raise (RuntimeError (error_text label (reply s req)))).

End Vocabulary.

(** ** Vocabulary of the further statements *)



(** The value of a numeric header of a response, as the mappers read it:
    [int(res.headers[name]) if res.headers[name] else 0]. *)
Definition header_number (res : response) (name : string) (n : Z) : Prop :=
  exists x,
    Url.header name (res_headers res) = Some x
    /\ (x = EmptyString /\ n = 0 \/ x <> EmptyString /\ PyInt.parse x = Some n).

(** The value of an id header of a response, as the mappers read it: the
    text [None] stands for no id. *)
Definition header_id (res : response) (name : string) (i : option string) : Prop :=
  exists x,
    Url.header name (res_headers res) = Some x
    /\ i = if String.eqb x "None" then None else Some x.

(** A metadata block as [GetBlockList] makes it, and a storage block as
    [GetBlockStorageList] makes it: the ids and nothing else. *)
Definition listed_block (project vault block_id : string) : Block.t :=
  Block.mk project vault (Some block_id) None None None None None PNone metadata.

Definition listed_storage_block (project vault storage_id : string) : Block.t :=
  Block.mk project vault None (Some storage_id) None None None None PNone storage.

Section WireVocabulary.
Context (E : Env).





End WireVocabulary.


(** ** A concrete service

    One vault [v1] of project [project1] with two blocks and one file,
    and a service that gives the same answer to every request. *)
Module Demo.

Definition nonempty (s : string) : bool := negb (String.eqb s EmptyString).

Definition id_rules : Rules :=
  {| val_project_id := nonempty;
     val_vault_id := nonempty;
     val_file_id := nonempty;
     val_metadata_block_id := nonempty;
     val_storage_block_id := nonempty |}.

Definition vaults : string := "/v1.0/vaults".

Definition api : ApiV1 :=
  {| get_vault_base_path := vaults;
     get_vault_path := fun v => vaults +:+ "/" +:+ v;
     get_blocks_path := fun v => vaults +:+ "/" +:+ v +:+ "/blocks";
     get_block_path := fun v b => vaults +:+ "/" +:+ v +:+ "/blocks/" +:+ str_id b;
     get_files_path := fun v => vaults +:+ "/" +:+ v +:+ "/files";
     get_file_path := fun v f => vaults +:+ "/" +:+ v +:+ "/files/" +:+ f;
     get_fileblocks_path := fun v f => vaults +:+ "/" +:+ v +:+ "/files/" +:+ f +:+ "/blocks";
     get_storage_blocks_path := fun v => vaults +:+ "/" +:+ v +:+ "/storage/blocks";
     get_storage_block_path :=
       fun v b => vaults +:+ "/" +:+ v +:+ "/storage/blocks/" +:+ str_id b |}.

Definition uri (host : string) (ssl : bool) (path : string) : string :=
  (if ssl then "https://" else "http://") +:+ host +:+ path.

Definition loads (s : string) : option pyval :=
  if String.eqb s "true" then Some (PBool true)
  else if String.eqb s "false" then Some (PBool false)
  else if String.eqb s "null" then Some PNone
  else None.

(** A URL library for the plain URLs of this service: no user
    information, no bracketed host, ASCII text.  The query is what stands
    between the first question mark and the fragment; its fields are
    separated by ampersands, a field without an equals sign or with an
    empty value is dropped, a plus sign is a space and [%XX] is the byte
    with that code. *)
Fixpoint before (c : ascii) (s : string) : string :=
  match s with
  | EmptyString => EmptyString
  | String x s' => if Ascii.eqb x c then EmptyString else String x (before c s')
  end.

Fixpoint after (c : ascii) (s : string) : option string :=
  match s with
  | EmptyString => None
  | String x s' => if Ascii.eqb x c then Some s' else after c s'
  end.

Definition plain_urlparse (url : string) : outcome ParseResult.t :=
  let no_fragment := before "#" url in
  Return (ParseResult.mk EmptyString EmptyString (before "?" no_fragment) EmptyString
            (from_option id EmptyString (after "?" no_fragment))
            (from_option id EmptyString (after "#" url))).

Fixpoint split (c : ascii) (s : string) : list string :=
  match s with
  | EmptyString => [EmptyString]
  | String x s' =>
      if Ascii.eqb x c then EmptyString :: split c s'
      else match split c s' with
           | [] => [String x EmptyString]
           | w :: ws => String x w :: ws
           end
  end.

Definition hex_val (c : ascii) : option N :=
  let n := N_of_ascii c in
  if (48 <=? n)%N && (n <=? 57)%N then Some (n - 48)%N
  else if (65 <=? n)%N && (n <=? 70)%N then Some (n - 55)%N
  else if (97 <=? n)%N && (n <=? 102)%N then Some (n - 87)%N
  else None.

Fixpoint unquote_plus (s : string) : string :=
  match s with
  | EmptyString => EmptyString
  | String c rest =>
      if Ascii.eqb c "+" then String " " (unquote_plus rest)
      else if Ascii.eqb c "%" then
        match rest with
        | String a (String b s') =>
            match hex_val a, hex_val b with
            | Some x, Some y => String (ascii_of_N (16 * x + y)) (unquote_plus s')
            | _, _ => String c (unquote_plus rest)
            end
        | _ => String c (unquote_plus rest)
        end
      else String c (unquote_plus rest)
  end.

Fixpoint append_value (k v : string) (d : sdict (list string)) : sdict (list string) :=
  match d with
  | [] => [(k, [v])]
  | (k', vs) :: d' =>
      if String.eqb k' k then (k', (vs ++ [v])%list) :: d' else (k', vs) :: append_value k v d'
  end.

Definition plain_parse_qs (qs : string) : sdict (list string) :=
  fold_left
    (fun d field =>
       match after "=" field with
       | None => d
       | Some EmptyString => d
       | Some v => append_value (unquote_plus (before "=" field)) (unquote_plus v) d
       end)
    (split "&" qs) [].

(** The service that answers [res] to everything. *)
Definition env (res : response) : Env :=
  {| rules := id_rules;
     api_v1 := api;
     command_uri := uri;
     transport := fun _ _ => res;
     json_loads := loads;
     urlparse := plain_urlparse;
     parse_qs := plain_parse_qs;
     save_stream := fun _ _ _ => None;
     apihost := "deuce.example.com";
     sslenabled := true;
     authenticator := {| AuthToken := "token"; AuthTenantId := "project1" |} |}.

Definition block (bid : string) : Block.t :=
  Block.mk "project1" "v1" (Some bid) None None None None None PNone metadata.

Definition f1 : File.t :=
  File.mk "project1" "v1" "f1" None [(PStr "0", PStr "b1"); (PStr "4096", PStr "b2")].

Definition v1 : Vault.t :=
  Vault.mk "project1" "v1" unknown
    (Blocks.mk [("b1", 0%nat); ("b2", 1%nat)] None "project1" "v1")
    (StorageBlocks.mk [] None "project1" "v1")
    (Files.mk [("f1", f1)] None "project1" "v1")
    None.

Definition s0 : state :=
  mk_state [v1] [block "b1"; block "b2"] [] "/" [] [].

Definition dq : string := String "034" EmptyString.

(** Answers without a body. *)
Definition created : response := mk_response 201 [] EmptyString EmptyString None.
Definition no_content : response := mk_response 204 [] EmptyString EmptyString None.
Definition not_found : response := mk_response 404 [] EmptyString EmptyString None.

(** A page of a listing, with a continuation. *)
Definition page_text : string := "[" +:+ dq +:+ "b3" +:+ dq +:+ ", " +:+ dq +:+ "b4" +:+ dq +:+ "]".

Definition page : response :=
  mk_response 200
    [("X-Next-Batch", "https://deuce.example.com/v1.0/vaults/v1/blocks?marker=b5&limit=2")]
    page_text page_text (Some (PList [PStr "b3"; PStr "b4"])).

(** The last page of a listing. *)
Definition last_page : response :=
  mk_response 200 [] page_text page_text (Some (PList [PStr "b3"; PStr "b4"])).

(** A page of a file-block listing. *)
Definition offsets_text : string :=
  "[[" +:+ dq +:+ "b3" +:+ dq +:+ ", 8192]]".

Definition offsets_page : response :=
  mk_response 200
    [("x-next-batch", "https://deuce.example.com/v1.0/vaults/v1/files/f1/blocks?marker=b5")]
    offsets_text offsets_text (Some (PList [PList [PStr "b3"; PInt 8192]])).

(** The answer to an assignment: one block is still to be uploaded. *)
Definition missing_text : string := "[" +:+ dq +:+ "b2" +:+ dq +:+ "]".

Definition missing : response :=
  mk_response 200 [] missing_text missing_text (Some (PList [PStr "b2"])).

(** A refusal to finalize a file, with the offsets of a gap as details. *)
Definition conflict : response :=
  mk_response 409 [] "[4096, 8192]" "[4096, 8192]" (Some (PList [PInt 4096; PInt 8192])).

Definition server_error : response :=
  mk_response 500 [] "Internal Server Error" "Internal Server Error" None.

(** A client that already holds a header of its own. *)
Definition s1 : state :=
  mk_state [v1] [block "b1"; block "b2"] [] "/" [("Accept", PStr "*/*")] [].



End Demo.

(** * Proofs *)

(** ** Running computations *)

Lemma bind_ret {A B} (a : A) (k : A -> M B) s : bind (ret a) k s = k a s.
Proof. reflexivity. Qed.

Lemma bind_raise {A B} e (k : A -> M B) s : bind (raise e) k s = (Raise e, s).
Proof. reflexivity. Qed.

Lemma bind_lift_Return {A B} (a : A) (k : A -> M B) s :
  bind (lift (Return a)) k s = k a s.
Proof. reflexivity. Qed.

Lemma bind_lift_Raise {A B} e (k : A -> M B) s :
  bind (lift (Raise e)) k s = (Raise e, s).
Proof. reflexivity. Qed.

Lemma bind_assoc {A B C} (m : M A) (f : A -> M B) (k : B -> M C) s :
  bind (bind m f) k s = bind m (fun x => bind (f x) k) s.
Proof. unfold bind. destruct (m s) as [[a|e] s']; reflexivity. Qed.

Lemma bind_get_vault {A} l v (k : Vault.t -> M A) s :
  st_vaults s !! l = Some v -> bind (get_vault l) k s = k v s.
Proof. intros H. unfold bind, get_vault. rewrite H. reflexivity. Qed.

Lemma bind_get_vault_None {A} l (k : Vault.t -> M A) s :
  st_vaults s !! l = None ->
  bind (get_vault l) k s = (Raise (TypeError "vault must be a Vault instance"), s).
Proof. intros H. unfold bind, get_vault. rewrite H. reflexivity. Qed.

Lemma bind_get_block {A} l b (k : Block.t -> M A) s :
  st_blocks s !! l = Some b -> bind (get_block l) k s = k b s.
Proof. intros H. unfold bind, get_block. rewrite H. reflexivity. Qed.

Lemma bind_get_block_None {A} l (k : Block.t -> M A) s :
  st_blocks s !! l = None ->
  bind (get_block l) k s = (Raise (TypeError "block must be a Block instance"), s).
Proof. intros H. unfold bind, get_block. rewrite H. reflexivity. Qed.

Lemma bind_get_project {A} l p (k : Projects.t -> M A) s :
  st_projects s !! l = Some p -> bind (get_project l) k s = k p s.
Proof. intros H. unfold bind, get_project. rewrite H. reflexivity. Qed.

Lemma bind_get_project_None {A} l (k : Projects.t -> M A) s :
  st_projects s !! l = None ->
  bind (get_project l) k s
  = (Raise (TypeError "project must be a Projects instance"), s).
Proof. intros H. unfold bind, get_project. rewrite H. reflexivity. Qed.

Lemma bind_put_vault {A} l v (k : unit -> M A) s :
  bind (put_vault l v) k s = k tt (with_vaults (<[l := v]> (st_vaults s)) s).
Proof. reflexivity. Qed.

Lemma bind_put_project {A} l p (k : unit -> M A) s :
  bind (put_project l p) k s = k tt (with_projects (<[l := p]> (st_projects s)) s).
Proof. reflexivity. Qed.

Lemma bind_put_block {A} l b (k : unit -> M A) s :
  bind (put_block l b) k s = k tt (with_blocks (<[l := b]> (st_blocks s)) s).
Proof. reflexivity. Qed.

Lemma bind_new_vault {A} v (k : loc -> M A) s :
  bind (new_vault v) k s
  = k (length (st_vaults s)) (with_vaults (st_vaults s ++ [v])%list s).
Proof. reflexivity. Qed.

Lemma bind_new_block {A} b (k : loc -> M A) s :
  bind (new_block b) k s
  = k (length (st_blocks s)) (with_blocks (st_blocks s ++ [b])%list s).
Proof. reflexivity. Qed.

Lemma lookup_new {X} (x : X) (xs : list X) : (xs ++ [x])%list !! length xs = Some x.
Proof. apply list_lookup_middle. reflexivity. Qed.

Lemma put_new {X} (x y : X) (xs : list X) :
  <[length xs := y]> (xs ++ [x])%list = (xs ++ [y])%list.
Proof.
  rewrite insert_app_r_alt by lia. rewrite Nat.sub_diag. reflexivity.
Qed.

Lemma lookup_put {X} l (v w : X) (vs : list X) :
  vs !! l = Some v -> <[l := w]> vs !! l = Some w.
Proof.
  intros H. apply list_lookup_insert_eq. eapply lookup_lt_Some. exact H.
Qed.

(** Reading the store of a state that was built from another. *)
Ltac store :=
  cbn [st_vaults st_blocks st_projects st_sent st_headers st_uripath
       with_vaults with_blocks with_projects with_sent with_headers with_uripath
       after_request];
  first [ eassumption | eapply lookup_put; eassumption | apply lookup_new ].

Ltac mstep :=
  cbv beta iota zeta;
  first
    [ rewrite bind_assoc
    | rewrite bind_ret
    | rewrite bind_raise
    | rewrite bind_lift_Return
    | rewrite bind_lift_Raise
    | rewrite bind_put_vault
    | rewrite bind_put_block
    | rewrite bind_new_vault
    | rewrite bind_new_block
    | erewrite bind_get_vault by store
    | erewrite bind_get_block by store ].

Ltac mrun := repeat mstep; cbv beta iota zeta.


(** ** What a computation leaves alone *)

Lemma keeps_ret {A X} (f : state -> X) (a : A) : keeps f (ret a).
Proof. intros s. reflexivity. Qed.

Lemma keeps_raise {A X} (f : state -> X) e : keeps f (@raise A e).
Proof. intros s. reflexivity. Qed.

Lemma keeps_lift {A X} (f : state -> X) (o : outcome A) : keeps f (lift o).
Proof. intros s. reflexivity. Qed.

Lemma keeps_bind {A B X} (f : state -> X) (m : M A) (k : A -> M B) :
  keeps f m -> (forall a, keeps f (k a)) -> keeps f (bind m k).
Proof.
  intros Hm Hk s. unfold bind. specialize (Hm s).
  destruct (m s) as [[a|e] s1]; cbn in *.
  - rewrite Hk. exact Hm.
  - exact Hm.
Qed.

Lemma keeps_try {A X} (f : state -> X) (m : M A) (h : exn -> M A) :
  keeps f m -> (forall e, keeps f (h e)) -> keeps f (try_except m h).
Proof.
  intros Hm Hh s. unfold try_except. specialize (Hm s).
  destruct (m s) as [[a|e] s1]; cbn in *.
  - exact Hm.
  - rewrite Hh. exact Hm.
Qed.

Lemma keeps_comprehension {A B X} (f : state -> X) (l : list A) (g : A -> M B) :
  (forall a, keeps f (g a)) -> keeps f (comprehension l g).
Proof.
  intros Hg. induction l as [|x l IH]; cbn [comprehension].
  - apply keeps_ret.
  - apply keeps_bind; [apply Hg|]. intros y.
    apply keeps_bind; [exact IH|]. intros ys. apply keeps_ret.
Qed.

Lemma keeps_for_each {A X} (f : state -> X) (l : list A) (g : A -> M unit) :
  (forall a, keeps f (g a)) -> keeps f (for_each l g).
Proof.
  intros Hg. induction l as [|x l IH]; cbn [for_each].
  - apply keeps_ret.
  - apply keeps_bind; [apply Hg|]. intros _. exact IH.
Qed.

Lemma keeps_get_vault {X} (f : state -> X) l : keeps f (get_vault l).
Proof. intros s. unfold get_vault. destruct (st_vaults s !! l); reflexivity. Qed.

Lemma keeps_get_block {X} (f : state -> X) l : keeps f (get_block l).
Proof. intros s. unfold get_block. destruct (st_blocks s !! l); reflexivity. Qed.

Lemma keeps_get_project {X} (f : state -> X) l : keeps f (get_project l).
Proof. intros s. unfold get_project. destruct (st_projects s !! l); reflexivity. Qed.

Lemma keeps_after {A X} (f : state -> X) (m : M A) s x :
  keeps f m -> f s = x -> f (snd (m s)) = x.
Proof. intros Hm Hs. rewrite Hm. exact Hs. Qed.

Create HintDb keeps.

(** Splits a computation into its steps; a step that only computes is
    closed by evaluation. *)
Ltac keeps_step :=
  intros; cbv beta zeta;
  lazymatch goal with
  | |- keeps _ (bind _ _) => apply keeps_bind
  | |- keeps _ (try_except _ _) => apply keeps_try
  | |- keeps _ (comprehension _ _) => apply keeps_comprehension
  | |- keeps _ (for_each _ _) => apply keeps_for_each
  | |- keeps _ (get_vault _) => apply keeps_get_vault
  | |- keeps _ (get_block _) => apply keeps_get_block
  | |- keeps _ (get_project _) => apply keeps_get_project
  | |- keeps _ (lift _) => apply keeps_lift
  | |- keeps _ (if ?c then _ else _) => destruct c
  | |- keeps _ (match ?x with _ => _ end) => destruct x
  | |- keeps _ _ => solve [ intros ?; reflexivity | eauto with keeps ]
  end.

Ltac keeps_auto := repeat keeps_step.

Lemma append_assoc (a b c : string) : (a +:+ b) +:+ c = a +:+ (b +:+ c).
Proof.
  induction a as [|x a IH]; [reflexivity|].
  change (String x ((a +:+ b) +:+ c) = String x (a +:+ (b +:+ c))).
  f_equal. exact IH.
Qed.

(** ** Taking apart a run that returned *)

Lemma bind_inv {A B} (m : M A) (k : A -> M B) s b s' :
  bind m k s = (Return b, s') ->
  exists a s1, m s = (Return a, s1) /\ k a s1 = (Return b, s').
Proof.
  unfold bind. destruct (m s) as [[a|e] s1]; [eauto|discriminate].
Qed.

Lemma get_vault_inv l s v s1 :
  get_vault l s = (Return v, s1) -> s1 = s /\ st_vaults s !! l = Some v.
Proof.
  unfold get_vault. destruct (st_vaults s !! l); intros H; inversion H; auto.
Qed.

Lemma get_project_inv l s p s1 :
  get_project l s = (Return p, s1) -> s1 = s /\ st_projects s !! l = Some p.
Proof.
  unfold get_project. destruct (st_projects s !! l); intros H; inversion H; auto.
Qed.

Lemma lift_inv {A} (o : outcome A) s a s1 :
  lift o s = (Return a, s1) -> s1 = s /\ o = Return a.
Proof. unfold lift. intros H. inversion H. auto. Qed.

Lemma ret_inv {A} (x : A) s a s1 : ret x s = (Return a, s1) -> s1 = s /\ a = x.
Proof. unfold ret. intros H. inversion H. auto. Qed.

Lemma keeps_run {A X} (f : state -> X) (m : M A) s o s' :
  keeps f m -> m s = (o, s') -> f s' = f s.
Proof. intros Hk Hrun. specialize (Hk s). rewrite Hrun in Hk. exact Hk. Qed.

Lemma next_batch_marker_inv E res s x s1 :
  next_batch_marker E res s = (Return x, s1) -> s1 = s /\ marker_after E res x.
Proof.
  unfold next_batch_marker, marker_after, carries_marker, no_continuation.
  destruct (Url.header "x-next-batch" (res_headers res)) as [url|].
  - destruct (urlparse E url) as [parts|e] eqn:Hparse;
      [rewrite bind_lift_Return|rewrite bind_lift_Raise; discriminate].
    change (ParseResult.getitem 4 parts) with (Return (ParseResult.query parts)).
    rewrite bind_lift_Return.
    destruct (sget "marker" (parse_qs E (ParseResult.query parts))) as [[|m ms]|] eqn:Hq;
      intros H; inversion H; subst.
    split; [reflexivity|]. split.
    + intros m' (url' & parts' & rest & Hu & Hp & Hm'). inversion Hu; subst.
      rewrite Hparse in Hp. inversion Hp; subst. congruence.
    + discriminate.
  - intros H. inversion H; subst. split; [reflexivity|]. split.
    + intros m (url & parts & rest & Hu & _). discriminate.
    + reflexivity.
Qed.

Lemma next_batch_marker_carries E res m s :
  carries_marker E res m -> next_batch_marker E res s = (Return (Some m), s).
Proof.
  intros (url & parts & rest & Hu & Hp & Hm). unfold next_batch_marker.
  rewrite Hu, Hp. rewrite bind_lift_Return.
  change (ParseResult.getitem 4 parts) with (Return (ParseResult.query parts)).
  rewrite bind_lift_Return. rewrite Hm. reflexivity.
Qed.

Lemma next_batch_marker_none E res s :
  no_continuation res -> next_batch_marker E res s = (Return None, s).
Proof. intros Hn. unfold next_batch_marker. rewrite Hn. reflexivity. Qed.

Lemma Blocks_set_marker_inv R x bs bs' :
  Blocks.set_marker R x bs = Return bs' -> Blocks.marker bs' = x.
Proof.
  unfold Blocks.set_marker. destruct (negb _); intros H; inversion H. reflexivity.
Qed.

Lemma Projects_set_marker_inv R x p p' :
  Projects.set_marker R x p = Return p' -> Projects.marker p' = x.
Proof.
  unfold Projects.set_marker. destruct (negb _); intros H; inversion H. reflexivity.
Qed.

Lemma StorageBlocks_set_marker_inv R x bs bs' :
  StorageBlocks.set_marker R x bs = Return bs' -> StorageBlocks.marker bs' = x.
Proof.
  unfold StorageBlocks.set_marker. destruct (negb _); intros H; inversion H. reflexivity.
Qed.

Lemma sget_sset {V} k (v : V) d : sget k (sset k v d) = Some v.
Proof.
  induction d as [|[k' v'] d IH]; cbn.
  - rewrite String.eqb_refl. reflexivity.
  - destruct (String.eqb k' k) eqn:Hk; cbn; rewrite Hk; [reflexivity|exact IH].
Qed.

(** The URL that the three listing methods build, in one expression. *)
Lemma listing_url base sep marker limit :
  (if not_none marker || not_none limit then
     match limit with
     | Some n =>
         match marker with
         | Some m => if not_none limit
                     then ((base +:+ "?") +:+ "marker=" +:+ m) +:+ sep
                     else (base +:+ "?") +:+ "marker=" +:+ m
         | None => base +:+ "?"
         end +:+ "limit=" +:+ pretty n
     | None =>
         match marker with
         | Some m => if not_none limit
                     then ((base +:+ "?") +:+ "marker=" +:+ m) +:+ sep
                     else (base +:+ "?") +:+ "marker=" +:+ m
         | None => base +:+ "?"
         end
     end
   else base) = listing_path base sep marker limit.
Proof.
  unfold listing_path.
  destruct marker as [m|], limit as [n|]; cbn [not_none orb listing_query];
    rewrite ?append_assoc; reflexivity.
Qed.

Lemma keys_sset {V} (P : string -> Prop) k (v : V) d :
  P k -> Forall P (map fst d) -> Forall P (map fst (sset k v d)).
Proof.
  intros Hk. induction d as [|[k' v'] d IH]; cbn; intros Hd.
  - constructor; [exact Hk|constructor].
  - inversion Hd; subst. destruct (String.eqb k' k); cbn; constructor; auto.
Qed.

Lemma StorageBlocks_update_ok R d : forall bs,
  Forall (fun k => val_storage_block_id R k = true) (map fst d) ->
  exists bs',
    StorageBlocks.update R d bs = Return bs'
    /\ (Forall (fun k => val_storage_block_id R k = true) (map fst (StorageBlocks.items bs)) ->
        Forall (fun k => val_storage_block_id R k = true) (map fst (StorageBlocks.items bs'))).
Proof.
  induction d as [|[k v] d IH]; intros bs Hd; cbn [StorageBlocks.update].
  - exists bs. auto.
  - inversion Hd as [|? ? Hk Hd']; subst. cbn [fst] in Hk.
    unfold StorageBlocks.setitem. rewrite Hk. cbn [negb].
    destruct (IH (StorageBlocks.mk (sset k v (StorageBlocks.items bs))
                    (StorageBlocks.marker bs) (StorageBlocks.project_id bs)
                    (StorageBlocks.vault_id bs)) Hd') as (bs' & Hrun & Hkeys).
    exists bs'. split; [exact Hrun|]. intros Hbs. apply Hkeys.
    cbn [StorageBlocks.items]. apply keys_sset; assumption.
Qed.

(** ** The steps of a request *)

Lemma bind_ReInit {A} path (k : unit -> M A) s :
  bind (ReInit path) k s = k tt (with_uripath path s).
Proof. reflexivity. Qed.

Lemma bind_update_headers {A} E (k : unit -> M A) s :
  bind (update_headers E) k s = k tt (with_headers (auth_headers E s) s).
Proof. reflexivity. Qed.

Lemma bind_Headers {A} (k : sdict pyval -> M A) s :
  bind Headers k s = k (st_headers s) s.
Proof. reflexivity. Qed.

Lemma bind_copy_headers {A} (k : sdict pyval -> M A) s :
  bind copy_headers k s = k (Dict.update String.eqb (st_headers s) []) s.
Proof. reflexivity. Qed.

Lemma bind_Uri {A} E (k : string -> M A) s :
  bind (Uri E) k s = k (uri_of E (st_uripath s)) s.
Proof. reflexivity. Qed.

Lemma bind_requests {A} E vb uri headers data stream (k : response -> M A) s :
  bind (requests E vb uri headers data stream) k s
  = k (reply E s (mk_request vb uri headers data stream))
      (with_sent (st_sent s ++ [mk_request vb uri headers data stream])%list s).
Proof. reflexivity. Qed.

Ltac rstep :=
  first
    [ mstep
    | rewrite bind_ReInit
    | rewrite bind_update_headers
    | rewrite bind_Headers
    | rewrite bind_copy_headers
    | rewrite bind_Uri ].

Ltac rrun := repeat rstep; cbv beta iota zeta.

Lemma ends_with_append label suffix : ends_with suffix (label +:+ suffix) = true.
Proof.
  induction label as [|c label IH].
  - change (EmptyString +:+ suffix) with suffix.
    destruct suffix; cbn [ends_with]; rewrite String.eqb_refl; reflexivity.
  - change (String c label +:+ suffix) with (String c (label +:+ suffix)).
    cbn [ends_with]. destruct (String.eqb _ suffix); [reflexivity|exact IH].
Qed.

(** ** Dictionaries *)

Lemma sget_sset_ne {V} k k' (v : V) d : k' <> k -> sget k' (sset k v d) = sget k' d.
Proof.
  intros Hne. induction d as [|[a x] d IH]; cbn.
  - destruct (String.eqb_spec k k'); [congruence|reflexivity].
  - destruct (String.eqb_spec a k) as [->|Hak]; cbn.
    + destruct (String.eqb_spec k k'); [congruence|reflexivity].
    + destruct (String.eqb a k'); [reflexivity|exact IH].
Qed.

Lemma sset_same {V} k (v : V) d : sget k d = Some v -> sset k v d = d.
Proof.
  induction d as [|[a x] d IH]; cbn; [discriminate|].
  destruct (String.eqb a k); intros H.
  - congruence.
  - rewrite IH by exact H. reflexivity.
Qed.







Section Claims.
Context (E : Env).

(** A request under the client's own headers: the path is recorded, the
    two authentication headers are set, and the answer of the service is
    handed to the rest of the method. *)
Lemma send_plain {A} vb path data stream (k : response -> M A) s :
  (ReInit path ;;; update_headers E ;;;
   uri <- Uri E ;; h <- Headers ;;
   res <- requests E vb uri h data stream ;; k res) s
  = let req := mk_request vb (uri_of E path) (auth_headers E s) data stream in
    k (reply E s req) (after_request E path req s).
Proof. reflexivity. Qed.

Ltac send := rewrite send_plain; cbv zeta.

(** The abbreviations of a statement, written out. *)
Ltac expand :=
  repeat match goal with
         | x := _ |- _ => subst x
         end;
  unfold plain_request in *.

Ltac finish :=
  repeat split; intros; try reflexivity; try congruence; try lia; auto; try discriminate.

(** *** Steps that read a response keep the whole state *)

Lemma keeps_res_json {X} (f : state -> X) res : keeps f (res_json res).
Proof. unfold res_json. keeps_auto. Qed.

Lemma keeps_res_header {X} (f : state -> X) name res : keeps f (res_header name res).
Proof. unfold res_header. keeps_auto. Qed.

Lemma keeps_next_batch_marker {X} (f : state -> X) res : keeps f (next_batch_marker E res).
Proof. unfold next_batch_marker. keeps_auto. Qed.

Lemma keeps_as_block_id {X} (f : state -> X) v : keeps f (as_block_id v).
Proof. unfold as_block_id. keeps_auto. Qed.

Lemma keeps_as_storage_id {X} (f : state -> X) v : keeps f (as_storage_id v).
Proof. unfold as_storage_id. keeps_auto. Qed.

Lemma keeps_py_items {X} (f : state -> X) v : keeps f (py_items v).
Proof. unfold py_items. keeps_auto. Qed.

#[local] Hint Resolve keeps_res_json keeps_res_header keeps_next_batch_marker
  keeps_as_block_id keeps_as_storage_id keeps_py_items : keeps.

Lemma keeps_int_header {X} (f : state -> X) name res : keeps f (int_header name res).
Proof. unfold int_header. keeps_auto. Qed.

Lemma keeps_id_header {X} (f : state -> X) name res : keeps f (id_header name res).
Proof. unfold id_header. keeps_auto. Qed.

#[local] Hint Resolve keeps_int_header keeps_id_header : keeps.

Lemma storage_blocks_of_keeps_sent vault entries : forall acc,
  keeps st_sent (storage_blocks_of E vault entries acc).
Proof.
  induction entries as [|x entries IH]; intros acc; cbn [storage_blocks_of].
  - apply keeps_ret.
  - keeps_auto.
Qed.

#[local] Hint Resolve storage_blocks_of_keeps_sent : keeps.

Lemma GetBlockList_body_keeps_sent vault entry :
  keeps st_sent (GetBlockList_body E vault entry).
Proof. unfold GetBlockList_body. keeps_auto. Qed.

Lemma GetFileBlockList_body_keeps_sent vault file_id entry :
  keeps st_sent (GetFileBlockList_body vault file_id entry).
Proof. unfold GetFileBlockList_body. keeps_auto. Qed.

#[local] Hint Resolve GetBlockList_body_keeps_sent GetFileBlockList_body_keeps_sent : keeps.

(** C10. [VaultExists] takes a vault object or a bare vault id.  Given a
    name it sends one HEAD request to the path of that vault and leaves
    every vault, block and project object as it was; it returns [True]
    exactly on status 204 and [False] exactly on status 404, and raises a
    [RuntimeError] on any other status.  Given a vault object it sends the
    request it would send for the id of that vault. *)
Theorem VaultExists_by_name_is_read_only (name : string) (s : state) :
  let path := get_vault_path (api_v1 E) name in
  let req := plain_request E HEAD path s in
  let res := reply E s req in
  exists out,
    VaultExists E (VaultName name) s = (out, after_request E path req s)
    /\ st_vaults (after_request E path req s) = st_vaults s
    /\ st_blocks (after_request E path req s) = st_blocks s
    /\ st_projects (after_request E path req s) = st_projects s
    /\ (out = Return true <-> status_code res = 204)
    /\ (out = Return false <-> status_code res = 404)
    /\ (forall l v, st_vaults s !! l = Some v -> Vault.vault_id v = name ->
        st_sent (snd (VaultExists E (VaultObject l) s)) = (st_sent s ++ [req])%list).
Proof.
  intros path req res.
  assert (Hobj : forall l v, st_vaults s !! l = Some v -> Vault.vault_id v = name ->
        st_sent (snd (VaultExists E (VaultObject l) s)) = (st_sent s ++ [req])%list).
  { intros l v Hl Hn. expand. unfold VaultExists. mrun. rewrite Hn. send.
    apply keeps_after; [keeps_auto|reflexivity]. }
  expand. unfold VaultExists. mrun. send.
  match goal with
  | |- context [Z.eqb (status_code ?r) 204] =>
      destruct (Z.eqb_spec (status_code r) 204) as [H204|H204];
        [|destruct (Z.eqb_spec (status_code r) 404) as [H404|H404]]
  end.
  - exists (Return true). split; [reflexivity|].
    repeat split; intros; try congruence; try lia; try (apply (Hobj l v); assumption).
  - exists (Return false). split; [reflexivity|].
    repeat split; intros; try congruence; try lia; try (apply (Hobj l v); assumption).
  - eexists. split; [reflexivity|].
    repeat split; intros; try congruence; try lia; try discriminate;
      try (apply (Hobj l v); assumption).
Qed.

(** C5. The status of a vault follows the calls made on it: a vault made
    by a [CreateVault] that is answered 201 has status [created]; an
    existence check on a vault object sets its status to [valid] and
    returns [True] on 204, sets it to [invalid] and returns [False] on
    404; a [DeleteVault] that is answered 204 sets the status to
    [deleted]. *)
Theorem vault_status_state_machine (s : state) :
  (forall name,
      let path := get_vault_path (api_v1 E) name in
      let req := plain_request E PUT path s in
      status_code (reply E s req) = 201 ->
      val_project_id (rules E) (project_id E) = true ->
      val_vault_id (rules E) name = true ->
      exists v s',
        CreateVault E name s = (Return (length (st_vaults s)), s')
        /\ st_vaults s' !! length (st_vaults s) = Some v
        /\ Vault.status v = created
        /\ Vault.vault_id v = name)
  /\ (forall l v,
      let path := get_vault_path (api_v1 E) (Vault.vault_id v) in
      let req := plain_request E HEAD path s in
      st_vaults s !! l = Some v ->
      (status_code (reply E s req) = 204 ->
       exists s',
         VaultExists E (VaultObject l) s = (Return true, s')
         /\ st_vaults s' = <[l := Vault.set_status valid v]> (st_vaults s))
      /\ (status_code (reply E s req) = 404 ->
       exists s',
         VaultExists E (VaultObject l) s = (Return false, s')
         /\ st_vaults s' = <[l := Vault.set_status invalid v]> (st_vaults s)))
  /\ (forall l v,
      let path := get_vault_path (api_v1 E) (Vault.vault_id v) in
      let req := plain_request E DELETE path s in
      st_vaults s !! l = Some v ->
      status_code (reply E s req) = 204 ->
      exists s',
        DeleteVault E l s = (Return true, s')
        /\ st_vaults s' = <[l := Vault.set_status deleted v]> (st_vaults s)).
Proof.
  split; [|split].
  - intros name path req H201 Hp Hv. expand.
    unfold CreateVault. cbv zeta. send.
    rewrite H201. cbn [Z.eqb Pos.eqb].
    unfold Vault.new. rewrite Hp, Hv. cbn [negb].
    mrun. eexists _, _. split; [reflexivity|].
    cbn [st_vaults with_vaults after_request with_sent with_headers with_uripath].
    rewrite put_new. rewrite lookup_new. finish.
  - intros l v path req Hl. expand. split; intros Hst.
    + unfold VaultExists. mrun. send. rewrite Hst.
      cbn [Z.eqb Pos.eqb]. mrun. eexists. split; reflexivity.
    + unfold VaultExists. mrun. send. rewrite Hst.
      cbn [Z.eqb Pos.eqb]. mrun. eexists. split; reflexivity.
  - intros l v path req Hl Hst. expand.
    unfold DeleteVault. mrun. send. rewrite Hst.
    cbn [Z.eqb Pos.eqb]. mrun. eexists. split; reflexivity.
Qed.

Lemma DeleteBlock_keeps_entities vault block : keeps entities (DeleteBlock E vault block).
Proof. unfold DeleteBlock. keeps_auto. Qed.

Lemma DeleteBlocks_keeps_entities vault ids : keeps entities (DeleteBlocks E vault ids).
Proof.
  unfold DeleteBlocks, do_delete_block. keeps_auto.
  apply DeleteBlock_keeps_entities.
Qed.

(** C8. No deletion removes anything from the local model.  [DeleteBlock],
    [DeleteBlocks] and [DeleteFile] leave every vault, block and project
    object as it was, whatever the service answers; [DeleteVault] either
    leaves them as they were or, when it returns [True], has replaced the
    vault by itself with status [deleted], its ids, its statistics and its
    collections of blocks, storage blocks and files being the same. *)
Theorem deletions_keep_the_local_model (vault : loc) (s : state) :
  (forall block, entities (snd (DeleteBlock E vault block s)) = entities s)
  /\ (forall block_ids, entities (snd (DeleteBlocks E vault block_ids s)) = entities s)
  /\ (forall file_id, entities (snd (DeleteFile E vault file_id s)) = entities s)
  /\ (entities (snd (DeleteVault E vault s)) = entities s
      \/ exists v,
           st_vaults s !! vault = Some v
           /\ fst (DeleteVault E vault s) = Return true
           /\ entities (snd (DeleteVault E vault s))
              = (<[vault := Vault.set_status deleted v]> (st_vaults s),
                 st_blocks s, st_projects s)
           /\ Vault.blocks (Vault.set_status deleted v) = Vault.blocks v
           /\ Vault.storageblocks (Vault.set_status deleted v) = Vault.storageblocks v
           /\ Vault.files (Vault.set_status deleted v) = Vault.files v
           /\ Vault.statistics (Vault.set_status deleted v) = Vault.statistics v
           /\ Vault.project_id (Vault.set_status deleted v) = Vault.project_id v
           /\ Vault.vault_id (Vault.set_status deleted v) = Vault.vault_id v).
Proof.
  split; [|split; [|split]].
  - intros block. apply DeleteBlock_keeps_entities.
  - intros ids. apply DeleteBlocks_keeps_entities.
  - intros file_id. revert s. change (keeps entities (DeleteFile E vault file_id)).
    unfold DeleteFile. keeps_auto.
  - unfold DeleteVault.
    destruct (st_vaults s !! vault) as [v|] eqn:Hl.
    + mrun. send.
      destruct (Z.eqb _ 204).
      * right. exists v. mrun. finish.
      * left. reflexivity.
    + left. rewrite bind_get_vault_None by exact Hl. reflexivity.
Qed.

(** *** Batch deletion *)

Lemma DeleteBlock_returns_true vault block s b s' :
  DeleteBlock E vault block s = (Return b, s') -> b = true.
Proof.
  unfold DeleteBlock.
  destruct (st_vaults s !! vault) as [v|] eqn:Hv;
    [|rewrite bind_get_vault_None by exact Hv; discriminate].
  destruct (st_blocks s !! block) as [bl|] eqn:Hb;
    [|mrun; rewrite bind_get_block_None by exact Hb; discriminate].
  mrun. send. destruct (Z.eqb _ 204); intros H; cbv [ret raise] in H; congruence.
Qed.

Lemma delete_attempt_returns_true vault block_id s b s' :
  delete_attempt E vault block_id s = (Return b, s') -> b = true.
Proof.
  unfold delete_attempt.
  destruct (st_vaults s !! vault) as [v|] eqn:Hv;
    [|rewrite bind_get_vault_None by exact Hv; discriminate].
  mrun. destruct (Blocks.getitem _ _ _) as [block|e]; mrun; [|discriminate].
  apply DeleteBlock_returns_true.
Qed.

Lemma delete_attempt_keeps_entities vault block_id :
  keeps entities (delete_attempt E vault block_id).
Proof. unfold delete_attempt. keeps_auto. apply DeleteBlock_keeps_entities. Qed.

(** One item of the batch, in terms of its attempt. *)
Lemma do_delete_block_attempt vault block_id s :
  do_delete_block E vault block_id s
  = match delete_attempt E vault block_id s with
    | (Return r, s1) => (Return (block_id, r), s1)
    | (Raise _, s1) => (Return (block_id, false), s1)
    end.
Proof.
  unfold do_delete_block, delete_attempt, try_except, bind.
  destruct (get_vault vault s) as [[v|e] s1]; [|reflexivity].
  destruct (lift _ s1) as [[block|e] s2]; [|reflexivity].
  destruct (DeleteBlock E vault block s2) as [[r|e] s3]; reflexivity.
Qed.

Lemma entities_vault s s' l v :
  entities s' = entities s -> st_vaults s !! l = Some v -> st_vaults s' !! l = Some v.
Proof. unfold entities. intros H Hl. congruence. Qed.

Lemma batch_attempted vault v ids : forall s,
  st_vaults s !! vault = Some v ->
  exists results s',
    comprehension ids (fun blockid => do_delete_block E vault blockid) s
    = (Return results, s')
    /\ map fst results = ids
    /\ entities s' = entities s
    /\ attempted E vault s ids results s'.
Proof.
  induction ids as [|block_id ids IH]; intros s Hv.
  - exists [], s. repeat split. constructor.
  - cbn [comprehension]. unfold bind at 1. rewrite do_delete_block_attempt.
    pose proof (delete_attempt_keeps_entities vault block_id s) as Hk.
    destruct (delete_attempt E vault block_id s) as [[r|e] s1] eqn:Ha; cbn [snd] in Hk.
    + pose proof (delete_attempt_returns_true _ _ _ _ _ Ha) as ->.
      destruct (IH s1) as (rs & s' & Hrun & Hfst & Hent & Hatt).
      { eapply entities_vault; eassumption. }
      unfold bind. rewrite Hrun. cbn.
      exists ((block_id, true) :: rs), s'. repeat split.
      * cbn. congruence.
      * congruence.
      * econstructor; eassumption.
    + destruct (IH s1) as (rs & s' & Hrun & Hfst & Hent & Hatt).
      { eapply entities_vault; eassumption. }
      unfold bind. rewrite Hrun. cbn.
      exists ((block_id, false) :: rs), s'. repeat split.
      * cbn. congruence.
      * congruence.
      * eapply attempted_failed; eassumption.
Qed.

(** The headers of a request, once set, are what a later request sets
    again. *)
Lemma auth_headers_again s1 s :
  st_headers s1 = auth_headers E s -> auth_headers E s1 = auth_headers E s.
Proof.
  intros Hs. unfold auth_headers at 1. rewrite Hs.
  assert (Ht : sget "X-Auth-Token" (auth_headers E s)
               = Some (PStr (AuthToken (authenticator E)))).
  { unfold auth_headers. rewrite sget_sset_ne by discriminate. apply sget_sset. }
  rewrite (sset_same _ _ _ Ht).
  apply sset_same. unfold auth_headers. apply sget_sset.
Qed.

Lemma DeleteBlock_run vault v block b s :
  st_vaults s !! vault = Some v ->
  st_blocks s !! block = Some b ->
  let path := get_block_path (api_v1 E) (Vault.vault_id v) (Block.block_id b) in
  let req := plain_request E DELETE path s in
  let res := reply E s req in
  DeleteBlock E vault block s
  = (if Z.eqb (status_code res) 204 then Return true
     else Raise (RuntimeError (error_text "Failed to delete Vault. " res)),
     after_request E path req s).
Proof.
  intros Hv Hb path req res. expand. unfold DeleteBlock. mrun. send.
  destruct (Z.eqb _ 204); reflexivity.
Qed.

Lemma do_delete_block_held vault v block_id b s :
  st_vaults s !! vault = Some v ->
  held_block E v (st_blocks s) block_id = Some b ->
  let path := get_block_path (api_v1 E) (Vault.vault_id v) (Block.block_id b) in
  let req := plain_request E DELETE path s in
  do_delete_block E vault block_id s
  = (Return (block_id, Z.eqb (status_code (reply E s req)) 204),
     after_request E path req s).
Proof.
  intros Hv Hheld path req. expand. unfold held_block in Hheld.
  destruct (val_metadata_block_id (rules E) block_id) eqn:Hid; [|discriminate].
  destruct (sget block_id (Blocks.items (Vault.blocks v))) as [block|] eqn:Hkey;
    [|discriminate].
  rewrite do_delete_block_attempt. unfold delete_attempt. mrun.
  unfold Blocks.getitem. rewrite Hid, Hkey. cbn [negb]. mrun.
  rewrite (DeleteBlock_run vault v block b s Hv Hheld). cbv zeta.
  unfold plain_request. destruct (Z.eqb _ 204); reflexivity.
Qed.

Lemma do_delete_block_not_held vault v block_id s :
  st_vaults s !! vault = Some v ->
  held_block E v (st_blocks s) block_id = None ->
  do_delete_block E vault block_id s = (Return (block_id, false), s).
Proof.
  intros Hv Hheld. unfold held_block in Hheld.
  rewrite do_delete_block_attempt. unfold delete_attempt. mrun.
  unfold Blocks.getitem.
  destruct (val_metadata_block_id (rules E) block_id); cbn [negb]; [|reflexivity].
  destruct (sget block_id (Blocks.items (Vault.blocks v))) as [block|]; [|reflexivity].
  mrun. unfold DeleteBlock. mrun.
  rewrite (bind_get_block_None _ _ _ Hheld). reflexivity.
Qed.

Lemma batch_fan_out vault v headers ids : forall s,
  st_vaults s !! vault = Some v ->
  auth_headers E s = headers ->
  (forall s1, st_headers s1 = headers -> auth_headers E s1 = headers) ->
  exists results s',
    comprehension ids (fun blockid => do_delete_block E vault blockid) s
    = (Return results, s')
    /\ (results, st_sent s') = fan_out E v (st_blocks s) headers (st_sent s) ids
    /\ entities s' = entities s.
Proof.
  induction ids as [|block_id ids IH]; intros s Hv Hh Hagain.
  - exists [], s. repeat split.
  - cbn [comprehension fan_out]. unfold bind at 1.
    destruct (held_block E v (st_blocks s) block_id) as [b|] eqn:Hheld.
    + rewrite (do_delete_block_held vault v block_id b s Hv Hheld). cbv zeta.
      unfold plain_request. rewrite Hh.
      set (path := get_block_path (api_v1 E) (Vault.vault_id v) (Block.block_id b)).
      set (req := mk_request DELETE (uri_of E path) headers None false).
      destruct (IH (after_request E path req s)) as (results & s' & Hrun & Hout & Hent).
      { exact Hv. }
      { apply Hagain. cbn [after_request st_headers with_sent with_headers]. exact Hh. }
      { exact Hagain. }
      unfold bind. rewrite Hrun.
      eexists _, s'. split; [reflexivity|].
      cbn [after_request st_blocks st_sent with_sent with_headers with_uripath] in Hout.
      unfold reply. rewrite <- Hout. split; [reflexivity|].
      rewrite Hent. reflexivity.
    + rewrite (do_delete_block_not_held vault v block_id s Hv Hheld).
      destruct (IH s Hv Hh Hagain) as (results & s' & Hrun & Hout & Hent).
      unfold bind. rewrite Hrun.
      eexists _, s'. split; [reflexivity|].
      rewrite <- Hout. split; [reflexivity|exact Hent].
Qed.

Lemma fan_out_ids v blocks headers ids : forall sent,
  map fst (fst (fan_out E v blocks headers sent ids)) = ids.
Proof.
  induction ids as [|block_id ids IH]; intros sent; [reflexivity|].
  cbn [fan_out]. destruct (held_block E v blocks block_id) as [b|].
  - cbv zeta. specialize (IH (sent ++ [mk_request DELETE
        (uri_of E (get_block_path (api_v1 E) (Vault.vault_id v) (Block.block_id b)))
        headers None false])%list).
    destruct (fan_out E v blocks headers _ ids) as [results sent']. cbn in *. congruence.
  - specialize (IH sent).
    destruct (fan_out E v blocks headers sent ids) as [results sent']. cbn in *. congruence.
Qed.

(** C7. [DeleteBlocks] never raises and is the best-effort fan-out of
    the spec.  For a vault object and any list of block ids it returns
    one pair per id, in the order of the ids.  The ids are taken one
    after the other: for an id under which the vault holds a block, one
    DELETE request goes to the path of that block, with the credentials
    of the client, and the boolean of the id is [true] exactly when the
    service answers 204; for an id under which the vault holds no block
    the boolean is [false] and no request goes out.  Neither a refusal
    of the service nor an id that is not held keeps the later ids from
    being taken.  The requests sent are those of the ids that are held,
    in their order, and no vault, block or project object is touched. *)
Theorem DeleteBlocks_is_best_effort (vault : loc) (v : Vault.t)
    (block_ids : list string) (s : state) :
  st_vaults s !! vault = Some v ->
  exists results s',
    DeleteBlocks E vault block_ids s = (Return results, s')
    /\ map fst results = block_ids
    /\ (results, st_sent s')
       = fan_out E v (st_blocks s) (auth_headers E s) (st_sent s) block_ids
    /\ entities s' = entities s.
Proof.
  intros Hv. unfold DeleteBlocks. mrun.
  destruct (batch_fan_out vault v (auth_headers E s) block_ids s Hv eq_refl)
    as (results & s' & Hrun & Hout & Hent).
  { intros s1 Hs1. apply auth_headers_again. exact Hs1. }
  exists results, s'. split; [exact Hrun|]. split; [|split; assumption].
  pose proof (fan_out_ids v (st_blocks s) (auth_headers E s) block_ids (st_sent s)) as Hids.
  rewrite <- Hout in Hids. exact Hids.
Qed.

Lemma comprehension_app {A B} (f : A -> M B) (l1 l2 : list A) : forall s,
  comprehension (l1 ++ l2)%list f s
  = (r1 <- comprehension l1 f ;; r2 <- comprehension l2 f ;; ret (r1 ++ r2)%list) s.
Proof.
  induction l1 as [|x l1 IH]; intros s; cbn [comprehension app]; unfold bind in *.
  - cbn. destruct (comprehension l2 f s) as [[r|e] s']; reflexivity.
  - destruct (f x s) as [[y|e] s1]; [|reflexivity].
    rewrite IH.
    destruct (comprehension l1 f s1) as [[r1|e] s2]; [|reflexivity].
    cbn. destruct (comprehension l2 f s2) as [[r2|e] s3]; reflexivity.
Qed.

Lemma do_delete_block_unknown vault v block_id s :
  st_vaults s !! vault = Some v ->
  sget block_id (Blocks.items (Vault.blocks v)) = None ->
  do_delete_block E vault block_id s = (Return (block_id, false), s).
Proof.
  intros Hv Hk. rewrite do_delete_block_attempt. unfold delete_attempt. mrun.
  unfold Blocks.getitem. rewrite Hk.
  destruct (negb _); reflexivity.
Qed.

(** C9. A block id that is not a key of the blocks of the vault gives the
    pair of that id and [false] and leaves the state as it is, so that no
    request goes out for it; the ids before it and after it in the input
    are processed as they would be without it. *)
Theorem DeleteBlocks_skips_unknown_ids (vault : loc) (v : Vault.t)
    (block_id : string) (s : state) :
  st_vaults s !! vault = Some v ->
  sget block_id (Blocks.items (Vault.blocks v)) = None ->
  do_delete_block E vault block_id s = (Return (block_id, false), s)
  /\ forall before after,
      exists r1 s1 r2 s2,
        DeleteBlocks E vault before s = (Return r1, s1)
        /\ DeleteBlocks E vault after s1 = (Return r2, s2)
        /\ DeleteBlocks E vault (before ++ block_id :: after)%list s
           = (Return (r1 ++ (block_id, false) :: r2)%list, s2).
Proof.
  intros Hv Hk. split; [eapply do_delete_block_unknown; eassumption|].
  intros before after.
  destruct (batch_attempted vault v before s Hv) as (r1 & s1 & Hrun1 & _ & Hent1 & _).
  assert (Hv1 : st_vaults s1 !! vault = Some v) by (eapply entities_vault; eassumption).
  destruct (batch_attempted vault v after s1 Hv1) as (r2 & s2 & Hrun2 & _ & _ & _).
  exists r1, s1, r2, s2.
  assert (H1 : DeleteBlocks E vault before s = (Return r1, s1)).
  { unfold DeleteBlocks. mrun. exact Hrun1. }
  assert (H2 : DeleteBlocks E vault after s1 = (Return r2, s2)).
  { unfold DeleteBlocks. mrun. exact Hrun2. }
  split; [exact H1|]. split; [exact H2|].
  unfold DeleteBlocks. mrun. rewrite comprehension_app.
  unfold bind at 1. rewrite Hrun1. cbn [comprehension].
  rewrite bind_assoc. unfold bind at 1.
  rewrite (do_delete_block_unknown vault v block_id s1 Hv1 Hk).
  rewrite bind_assoc. unfold bind at 1. rewrite Hrun2. reflexivity.
Qed.

(** *** Listing requests *)

(** C6. A listing call sends one GET request whose path is the path of
    the collection and, when a marker or a limit is given, a question mark
    and then the marker parameter first and the limit parameter second;
    between the two stands a comma in the block listing and in the
    file-block listing, an ampersand in the storage-block listing.  The
    vault listing, which takes no limit, appends its marker the same way. *)
Theorem listing_query_marker_then_limit (vault : loc) (v : Vault.t)
    (marker : option string) (limit : option Z) (s : state) :
  st_vaults s !! vault = Some v ->
  (marker <> None \/ limit <> None) ->
  st_sent (snd (GetBlockList E vault marker limit s))
  = (st_sent s ++
     [plain_request E GET
        (get_blocks_path (api_v1 E) (Vault.vault_id v)
         +:+ "?" +:+ listing_query "," marker limit) s])%list
  /\ (forall file_id,
       Files.contains file_id (Vault.files v) = true ->
       st_sent (snd (GetFileBlockList E vault file_id marker limit s))
       = (st_sent s ++
          [plain_request E GET
             (get_fileblocks_path (api_v1 E) (Vault.vault_id v) file_id
              +:+ "?" +:+ listing_query "," marker limit) s])%list)
  /\ st_sent (snd (GetBlockStorageList E vault marker limit s))
     = (st_sent s ++
        [plain_request E GET
           (get_storage_blocks_path (api_v1 E) (Vault.vault_id v)
            +:+ "?" +:+ listing_query "&" marker limit) s])%list
  /\ (forall project p m,
       st_projects s !! project = Some p ->
       st_sent (snd (ListVaults E project (Some m) s))
       = (st_sent s ++
          [plain_request E GET
             (get_vault_base_path (api_v1 E) +:+ "?" +:+ listing_query "," (Some m) None)
             s])%list).
Proof.
  intros Hv Hq.
  assert (Hpath : forall base sep,
    listing_path base sep marker limit = base +:+ "?" +:+ listing_query sep marker limit).
  { intros base sep. unfold listing_path.
    destruct marker, limit; try reflexivity. destruct Hq; congruence. }
  split; [|split; [|split]].
  - unfold GetBlockList. mrun. send. rewrite listing_url, Hpath.
    apply keeps_after; [|reflexivity]. keeps_auto.
  - intros file_id Hf. unfold GetFileBlockList. mrun. rewrite Hf. cbn [negb]. mrun.
    send. rewrite listing_url, Hpath.
    apply keeps_after; [|reflexivity]. keeps_auto.
  - unfold GetBlockStorageList. mrun. send. rewrite listing_url, Hpath.
    apply keeps_after; [|reflexivity]. keeps_auto.
  - intros project p m Hp. unfold ListVaults.
    rewrite (bind_get_project _ _ _ _ Hp). send.
    apply keeps_after; [keeps_auto|reflexivity].
Qed.

(** *** Assigning blocks to a file *)

Lemma ne_str_false v b : Py.ne_str v b = false <-> v = PStr b.
Proof.
  destruct v; cbn; try (split; [discriminate|congruence]).
  rewrite negb_false_iff, String.eqb_eq. split; congruence.
Qed.

Lemma Files_get_contains file_id fs f :
  sget file_id (Files.items fs) = Some f -> Files.contains file_id fs = true.
Proof. unfold Files.contains, Dict.mem. intros ->. reflexivity. Qed.

Lemma bind_getitem_file {A} file_id fs f (k : File.t -> M A) s :
  sget file_id (Files.items fs) = Some f ->
  bind (lift (Files.getitem file_id fs)) k s = k f s.
Proof. intros H. unfold Files.getitem. rewrite H. reflexivity. Qed.

(** C1. Without an explicit list, for a file of the vault whose offsets
    dictionary is not empty, [AssignBlocksToFile] sends one POST request
    to the file-blocks path whose body is the JSON text of the pairs
    [(block id, offset)] of that dictionary, in its order; when the answer
    has status 200 and its body is a JSON array, the call returns the
    elements of that array and the state is left as the request left it. *)
Theorem AssignBlocksToFile_submits_local_offsets (vault : loc) (v : Vault.t)
    (file_id : string) (f : File.t) (s : state) :
  st_vaults s !! vault = Some v ->
  sget file_id (Files.items (Vault.files v)) = Some f ->
  File.offsets f <> [] ->
  let path := get_fileblocks_path (api_v1 E) (Vault.vault_id v) file_id in
  let req := mk_request POST (uri_of E path) (auth_headers E s)
               (Some (JsonText (offset_pairs (File.offsets f)))) false in
  let res := reply E s req in
  st_sent (snd (AssignBlocksToFile E vault file_id None s)) = (st_sent s ++ [req])%list
  /\ (forall block_ids,
       status_code res = 200 ->
       json res = Some (PList block_ids) ->
       AssignBlocksToFile E vault file_id None s
       = (Return block_ids, after_request E path req s)).
Proof.
  intros Hv Hf Hne path req res. expand.
  assert (Hlen : Z.eqb (Z.of_nat (length (File.offsets f))) 0 = false).
  { apply Z.eqb_neq. destruct (File.offsets f); [congruence|]. cbn [length]. lia. }
  assert (Hrun :
    (AssignBlocksToFile E vault file_id None s
     = let req := mk_request POST
                    (uri_of E (get_fileblocks_path (api_v1 E) (Vault.vault_id v) file_id))
                    (auth_headers E s)
                    (Some (JsonText (offset_pairs (File.offsets f)))) false in
       (fun res : response =>
          if Z.eqb (status_code res) 200 then
            j <- res_json res ;;
            block_list_to_upload <- lift (py_iter j) ;;
            ret block_list_to_upload
          else
            raise (RuntimeError (error_text "Failed to Assign Blocks to the File. " res)))
         (reply E s req)
         (after_request E (get_fileblocks_path (api_v1 E) (Vault.vault_id v) file_id) req s))).
  { unfold AssignBlocksToFile. mrun.
    rewrite (Files_get_contains _ _ _ Hf). cbn [negb]. mrun.
    rewrite (bind_getitem_file _ _ _ _ _ Hf). rewrite Hlen. mrun.
    unfold after_request.
    unfold bind at 1. cbn [ReInit]. unfold bind at 1. cbn [update_headers].
    rewrite bind_assoc. erewrite bind_get_vault by store.
    rewrite bind_assoc. rewrite (bind_getitem_file _ _ _ _ _ Hf). mrun.
    reflexivity. }
  cbv zeta in Hrun.
  split.
  - rewrite Hrun. apply keeps_after; [|reflexivity]. keeps_auto.
  - intros ids H200 Hjson. rewrite Hrun. cbv beta. rewrite H200. cbn [Z.eqb Pos.eqb].
    unfold res_json. rewrite Hjson. reflexivity.
Qed.

Lemma check_block_ids_skip vault v file_id f checked rest s :
  st_vaults s !! vault = Some v ->
  sget file_id (Files.items (Vault.files v)) = Some f ->
  Forall (assigned f) checked ->
  check_block_ids vault file_id (checked ++ rest)%list s
  = check_block_ids vault file_id rest s.
Proof.
  intros Hv Hf Hall. induction Hall as [|[b o] ids Hp Hall IH]; [reflexivity|].
  cbn [check_block_ids app].
  unfold assigned, recorded_at in Hp. cbn [fst snd] in Hp.
  mrun. rewrite (bind_getitem_file _ _ _ _ _ Hf).
  unfold Dict.mem. rewrite Hp. cbn [negb]. mrun.
  rewrite (bind_getitem_file _ _ _ _ _ Hf). rewrite Hp.
  rewrite (proj2 (ne_str_false _ _) eq_refl). exact IH.
Qed.

(** C2. The preconditions of [AssignBlocksToFile] fail locally, in the
    order in which the method checks them.  A file id that is not in the
    files of the vault raises [KeyError]; for a file of the vault, an
    empty explicit list raises [ValueError]; and where the pairs before a
    pair of the explicit list all agree with the file, that pair raises
    [KeyError] when its offset is not recorded in the file and
    [ValueError] when the block id recorded at its offset is another.  In
    each case the state is the one the call started in: no request was
    sent and no object was touched. *)
Theorem AssignBlocksToFile_preconditions_fail_locally (vault : loc) (v : Vault.t)
    (file_id : string) (s : state) :
  st_vaults s !! vault = Some v ->
  (forall block_ids,
      Files.contains file_id (Vault.files v) = false ->
      exists msg,
        AssignBlocksToFile E vault file_id block_ids s = (Raise (KeyError msg), s))
  /\ (Files.contains file_id (Vault.files v) = true ->
      exists msg,
        AssignBlocksToFile E vault file_id (Some []) s = (Raise (ValueError msg), s))
  /\ (forall f checked block_id offset rest,
      sget file_id (Files.items (Vault.files v)) = Some f ->
      Forall (assigned f) checked ->
      (recorded_at f offset = None ->
       exists msg,
         AssignBlocksToFile E vault file_id
           (Some (checked ++ (block_id, offset) :: rest)%list) s
         = (Raise (KeyError msg), s))
      /\ (forall recorded,
          recorded_at f offset = Some recorded ->
          recorded <> PStr block_id ->
          exists msg,
            AssignBlocksToFile E vault file_id
              (Some (checked ++ (block_id, offset) :: rest)%list) s
            = (Raise (ValueError msg), s))).
Proof.
  intros Hv. split; [|split].
  - intros block_ids Hc. unfold AssignBlocksToFile. mrun. rewrite Hc. cbn [negb].
    eexists. reflexivity.
  - intros Hc. unfold AssignBlocksToFile. mrun. rewrite Hc. cbn [negb length Z.of_nat Z.eqb].
    mrun. eexists. reflexivity.
  - intros f checked block_id offset rest Hf Hall.
    assert (Hstart : forall A (k : unit -> M A),
      bind (check_block_ids vault file_id (checked ++ (block_id, offset) :: rest)%list) k s
      = bind (check_block_ids vault file_id ((block_id, offset) :: rest)) k s).
    { intros A k. unfold bind.
      erewrite check_block_ids_skip by eassumption. reflexivity. }
    assert (Hlen : Z.eqb (Z.of_nat (length (checked ++ (block_id, offset) :: rest)%list)) 0
                   = false).
    { apply Z.eqb_neq. rewrite length_app. cbn [length]. lia. }
    split.
    + intros Hnone. unfold AssignBlocksToFile. mrun.
      rewrite (Files_get_contains _ _ _ Hf). cbn [negb]. rewrite Hlen.
      rewrite Hstart. cbn [check_block_ids]. mrun.
      rewrite (bind_getitem_file _ _ _ _ _ Hf).
      unfold recorded_at in Hnone. unfold Dict.mem. rewrite Hnone. cbn [negb].
      eexists. reflexivity.
    + intros recorded Hrec Hdiff. unfold AssignBlocksToFile. mrun.
      rewrite (Files_get_contains _ _ _ Hf). cbn [negb]. rewrite Hlen.
      rewrite Hstart. cbn [check_block_ids]. mrun.
      rewrite (bind_getitem_file _ _ _ _ _ Hf).
      unfold recorded_at in Hrec. unfold Dict.mem. rewrite Hrec. cbn [negb]. mrun.
      rewrite (bind_getitem_file _ _ _ _ _ Hf). rewrite Hrec.
      destruct (Py.ne_str recorded block_id) eqn:Hne.
      * eexists. reflexivity.
      * apply ne_str_false in Hne. contradiction.
Qed.

(** *** Markers *)

(** Takes a hypothesis [H : bind m k s = (Return b, s')] apart, step by
    step, as long as the first step is one whose run is known. *)
Ltac unbind H :=
  let a := fresh "a" in
  let s1 := fresh "s" in
  let Hm := fresh "Hm" in
  apply bind_inv in H; destruct H as (a & s1 & Hm & H); cbv beta zeta in H.

Ltac unbind_as H a s1 Hm :=
  apply bind_inv in H; destruct H as (a & s1 & Hm & H); cbv beta zeta in H.

Lemma res_json_inv res s j s1 :
  res_json res s = (Return j, s1) -> s1 = s /\ json res = Some j.
Proof.
  unfold res_json. destruct (json res); intros H; inversion H; auto.
Qed.

(** **** What a listing leaves of the vault *)

Lemma vault_but_blocks v : v = Vault.set_blocks (Vault.blocks v) v.
Proof. destruct v. reflexivity. Qed.

Lemma vault_but_files v : v = Vault.set_files (Vault.files v) v.
Proof. destruct v. reflexivity. Qed.

Lemma GetBlockList_body_frame vault v entry s :
  st_vaults s !! vault = Some v ->
  exists v1,
    st_vaults (snd (GetBlockList_body E vault entry s)) !! vault = Some v1
    /\ v1 = Vault.set_blocks (Vault.blocks v1) v.
Proof.
  intros Hv. unfold GetBlockList_body. mrun.
  destruct entry; cbn [as_block_id]; mrun;
    try (exists v; split; [exact Hv|apply vault_but_blocks]).
  destruct (Block.new _ _ _ _ _ _) as [b|e]; mrun;
    [|exists v; split; [exact Hv|apply vault_but_blocks]].
  destruct (Blocks.setitem _ _ _ _) as [bs|e]; mrun.
  - eexists. split; [cbn [snd ret]; store|reflexivity].
  - exists v. split; [cbn [snd]; store|apply vault_but_blocks].
Qed.

Lemma GetBlockList_loop_frame vault entries : forall v s,
  st_vaults s !! vault = Some v ->
  exists v1,
    st_vaults (snd (comprehension entries (GetBlockList_body E vault) s)) !! vault = Some v1
    /\ v1 = Vault.set_blocks (Vault.blocks v1) v.
Proof.
  induction entries as [|x entries IH]; intros v s Hv.
  - exists v. split; [exact Hv|apply vault_but_blocks].
  - cbn [comprehension]. unfold bind.
    destruct (GetBlockList_body_frame vault v x s Hv) as (v1 & Hv1 & Heq1).
    destruct (GetBlockList_body E vault x s) as [[y|e] s1]; cbn [snd] in *;
      [|exists v1; auto].
    destruct (IH v1 s1 Hv1) as (v2 & Hv2 & Heq2).
    exists v2.
    destruct (comprehension entries (GetBlockList_body E vault) s1) as [[ys|e] s2];
      cbn [snd ret] in *; (split; [exact Hv2|]); rewrite Heq2, Heq1; reflexivity.
Qed.

Lemma GetFileBlockList_body_frame vault v file_id entry s :
  st_vaults s !! vault = Some v ->
  exists v1,
    st_vaults (snd (GetFileBlockList_body vault file_id entry s)) !! vault = Some v1
    /\ v1 = Vault.set_files (Vault.files v1) v
    /\ Files.marker (Vault.files v1) = Files.marker (Vault.files v).
Proof.
  intros Hv. unfold GetFileBlockList_body.
  destruct (py_unpack2 entry) as [pair|e]; mrun;
    [|exists v; split; [exact Hv|split; [apply vault_but_files|reflexivity]]].
  destruct (Files.getitem _ _) as [f|e]; mrun;
    [|exists v; split; [exact Hv|split; [apply vault_but_files|reflexivity]]].
  destruct (dict_setitem _ _ _) as [o|e]; mrun;
    [|exists v; split; [exact Hv|split; [apply vault_but_files|reflexivity]]].
  eexists. split; [cbn [snd ret]; store|split; reflexivity].
Qed.

Lemma GetFileBlockList_loop_frame vault file_id entries : forall v s,
  st_vaults s !! vault = Some v ->
  exists v1,
    st_vaults (snd (comprehension entries (GetFileBlockList_body vault file_id) s)) !! vault
    = Some v1
    /\ v1 = Vault.set_files (Vault.files v1) v
    /\ Files.marker (Vault.files v1) = Files.marker (Vault.files v).
Proof.
  induction entries as [|x entries IH]; intros v s Hv.
  - exists v. split; [exact Hv|split; [apply vault_but_files|reflexivity]].
  - cbn [comprehension]. unfold bind.
    destruct (GetFileBlockList_body_frame vault v file_id x s Hv) as (v1 & Hv1 & Heq1 & Hmk1).
    destruct (GetFileBlockList_body vault file_id x s) as [[y|e] s1]; cbn [snd] in *;
      [|exists v1; auto].
    destruct (IH v1 s1 Hv1) as (v2 & Hv2 & Heq2 & Hmk2).
    exists v2.
    destruct (comprehension entries (GetFileBlockList_body vault file_id) s1)
      as [[ys|e] s2];
      cbn [snd ret] in *; (split; [exact Hv2|]);
      (split; [rewrite Heq2, Heq1; reflexivity|congruence]).
Qed.

Lemma storage_blocks_of_keeps_vaults vault entries : forall acc,
  keeps st_vaults (storage_blocks_of E vault entries acc).
Proof.
  induction entries as [|x entries IH]; intros acc; cbn [storage_blocks_of].
  - apply keeps_ret.
  - keeps_auto.
Qed.

(** **** The marker of a call that returned *)

Lemma GetBlockList_marker vault marker limit s ids s' :
  GetBlockList E vault marker limit s = (Return ids, s') ->
  exists req v v',
    st_vaults s !! vault = Some v
    /\ st_sent s' = (st_sent s ++ [req])%list
    /\ status_code (reply E s req) = 200
    /\ st_vaults s' !! vault = Some v'
    /\ marker_after E (reply E s req) (Blocks.marker (Vault.blocks v'))
    /\ Vault.storageblocks v' = Vault.storageblocks v
    /\ Vault.files v' = Vault.files v.
Proof.
  unfold GetBlockList. intros H.
  unbind_as H v s0 Hm. apply get_vault_inv in Hm as [-> Hv]. cbv zeta in H.
  rewrite send_plain in H. cbv zeta in H.
  match type of H with
  | context [reply E s ?r] => set (req := r) in *
  end.
  set (res := reply E s req) in *.
  destruct (Z.eqb_spec (status_code res) 200) as [H200|]; [|discriminate].
  unbind_as H j s1 Hj. apply res_json_inv in Hj as [-> Hj].
  unbind_as H entries s1 Hiter. apply lift_inv in Hiter as [-> Hiter].
  unbind_as H block_ids s2 Hloop.
  match type of Hloop with
  | comprehension _ _ ?s1 = _ =>
      destruct (GetBlockList_loop_frame vault entries v s1) as (v1 & Hv1 & Heq1);
        [store|]
  end.
  pose proof Hloop as Hsent.
  apply keeps_run with (f := st_sent) in Hsent; [|keeps_auto].
  rewrite Hloop in Hv1. cbn [snd] in Hv1.
  cbn [st_sent after_request with_sent] in Hsent.
  unbind_as H m s3 Hmark. apply next_batch_marker_inv in Hmark as [-> Hafter].
  unbind_as H v2 s3 Hget. apply get_vault_inv in Hget as [-> Hv2].
  unbind_as H bs s3 Hset. apply lift_inv in Hset as [-> Hset].
  apply Blocks_set_marker_inv in Hset.
  rewrite bind_put_vault in H. apply ret_inv in H as [-> _].
  assert (v2 = v1) by congruence. subst v2.
  exists req, v, (Vault.set_blocks bs v1).
  split; [exact Hv|]. split; [exact Hsent|]. split; [exact H200|]. split.
  { cbn [st_vaults with_vaults]. eapply lookup_put; eassumption. }
  cbn [Vault.blocks Vault.set_blocks Vault.storageblocks Vault.files].
  rewrite Hset. split; [exact Hafter|].
  rewrite Heq1. split; reflexivity.
Qed.

Lemma GetFileBlockList_marker vault file_id marker limit s ids next_marker s' :
  GetFileBlockList E vault file_id marker limit s = (Return (ids, next_marker), s') ->
  exists req v v',
    st_vaults s !! vault = Some v
    /\ st_sent s' = (st_sent s ++ [req])%list
    /\ status_code (reply E s req) = 200
    /\ marker_after E (reply E s req) next_marker
    /\ st_vaults s' !! vault = Some v'
    /\ Vault.blocks v' = Vault.blocks v
    /\ Vault.storageblocks v' = Vault.storageblocks v
    /\ Files.marker (Vault.files v') = Files.marker (Vault.files v).
Proof.
  unfold GetFileBlockList. intros H.
  unbind_as H v s0 Hm. apply get_vault_inv in Hm as [-> Hv].
  destruct (negb _); [discriminate|]. cbv zeta in H.
  rewrite send_plain in H. cbv zeta in H.
  match type of H with
  | context [reply E s ?r] => set (req := r) in *
  end.
  set (res := reply E s req) in *.
  destruct (Z.eqb_spec (status_code res) 200) as [H200|]; [|discriminate].
  unbind_as H j s1 Hj. apply res_json_inv in Hj as [-> Hj].
  unbind_as H entries s1 Hiter. apply lift_inv in Hiter as [-> Hiter].
  unbind_as H block_ids s2 Hloop.
  match type of Hloop with
  | comprehension _ _ ?s1 = _ =>
      destruct (GetFileBlockList_loop_frame vault file_id entries v s1)
        as (v1 & Hv1 & Heq1 & Hmk1); [store|]
  end.
  pose proof Hloop as Hsent.
  apply keeps_run with (f := st_sent) in Hsent; [|keeps_auto].
  rewrite Hloop in Hv1. cbn [snd] in Hv1.
  cbn [st_sent after_request with_sent] in Hsent.
  unbind_as H m s3 Hmark. apply next_batch_marker_inv in Hmark as [-> Hafter].
  apply ret_inv in H as [-> Heq]. inversion Heq; subst.
  exists req, v, v1.
  split; [exact Hv|]. split; [exact Hsent|]. split; [exact H200|].
  split; [exact Hafter|]. split; [exact Hv1|].
  rewrite Heq1. cbn [Vault.blocks Vault.storageblocks Vault.set_files]. auto.
Qed.

Lemma GetBlockStorageList_marker vault marker limit s ids s' :
  GetBlockStorageList E vault marker limit s = (Return ids, s') ->
  exists req v v',
    st_vaults s !! vault = Some v
    /\ st_sent s' = (st_sent s ++ [req])%list
    /\ status_code (reply E s req) = 200
    /\ st_vaults s' !! vault = Some v'
    /\ marker_after E (reply E s req) (StorageBlocks.marker (Vault.storageblocks v'))
    /\ Vault.blocks v' = Vault.blocks v
    /\ Vault.files v' = Vault.files v.
Proof.
  unfold GetBlockStorageList. intros H.
  unbind_as H v s0 Hm. apply get_vault_inv in Hm as [-> Hv]. cbv zeta in H.
  rewrite send_plain in H. cbv zeta in H.
  match type of H with
  | context [reply E s ?r] => set (req := r) in *
  end.
  set (res := reply E s req) in *.
  destruct (Z.eqb_spec (status_code res) 200) as [H200|]; [|discriminate].
  unbind_as H v0 s1 Hget0. apply get_vault_inv in Hget0 as [-> Hv0].
  unbind_as H block_list s1 Hnew. apply lift_inv in Hnew as [-> Hnew].
  unbind_as H j s1 Hj. apply res_json_inv in Hj as [-> Hj].
  unbind_as H entries s1 Hiter. apply lift_inv in Hiter as [-> Hiter].
  unbind_as H blocks s2 Hloop.
  pose proof Hloop as Hsent.
  apply keeps_run with (f := st_sent) in Hsent; [|apply storage_blocks_of_keeps_sent].
  pose proof Hloop as Hvaults.
  apply keeps_run with (f := st_vaults) in Hvaults; [|apply storage_blocks_of_keeps_vaults].
  cbn [st_sent st_vaults after_request with_sent with_headers with_uripath]
    in Hsent, Hvaults.
  unbind_as H block_list' s3 Hupd. apply lift_inv in Hupd as [-> Hupd].
  unbind_as H v1 s3 Hget1. apply get_vault_inv in Hget1 as [-> Hv1].
  unbind_as H sb s3 Hupd2. apply lift_inv in Hupd2 as [-> Hupd2].
  rewrite bind_put_vault in H.
  unbind_as H m s3 Hmark. apply next_batch_marker_inv in Hmark as [-> Hafter].
  unbind_as H v2 s3 Hget2. apply get_vault_inv in Hget2 as [-> Hv2].
  unbind_as H sb' s3 Hset. apply lift_inv in Hset as [-> Hset].
  apply StorageBlocks_set_marker_inv in Hset.
  rewrite bind_put_vault in H.
  unbind_as H j' s3 Hj'. apply res_json_inv in Hj' as [-> _].
  apply lift_inv in H as [-> _].
  assert (v1 = v) by (rewrite Hvaults in Hv1; congruence). subst v1.
  cbn [st_vaults with_vaults] in Hv2.
  rewrite (lookup_put _ _ _ _ Hv1) in Hv2. inversion Hv2; subst v2.
  exists req, v, (Vault.set_storageblocks sb' (Vault.set_storageblocks sb v)).
  split; [exact Hv|]. split; [exact Hsent|]. split; [exact H200|]. split.
  { cbn [st_vaults with_vaults]. eapply lookup_put. eapply lookup_put. exact Hv1. }
  cbn [Vault.storageblocks Vault.set_storageblocks Vault.blocks Vault.files].
  rewrite Hset. auto.
Qed.

Lemma ListVaults_marker project marker s r s' :
  ListVaults E project marker s = (Return r, s') ->
  exists req p',
    st_sent s' = (st_sent s ++ [req])%list
    /\ status_code (reply E s req) = 200
    /\ st_projects s' !! project = Some p'
    /\ marker_after E (reply E s req) (Projects.marker p').
Proof.
  unfold ListVaults. intros H.
  unbind H. apply get_project_inv in Hm as [-> Hp].
  assert (Hgo : exists path,
    (update_headers E ;;;
     uri <- Uri E ;; h <- Headers ;;
     res <- requests E GET uri h None false ;;
     if Z.eqb (status_code res) 200 then
       j <- res_json res ;;
       entries <- py_items j ;;
       for_each entries (fun entry =>
         let vault_name := fst entry in
         p <- get_project project ;;
         if negb (Projects.contains vault_name p) then
           v <- lift (Vault.new (rules E) (Projects.project_id p) vault_name) ;;
           vault <- new_vault v ;;
           p <- get_project project ;;
           p' <- lift (Projects.setitem (rules E) vault_name vault p) ;;
           put_project project p' ;;;
           p <- get_project project ;;
           vault <- lift (Projects.getitem vault_name p) ;;
           v <- get_vault vault ;;
           put_vault vault (Vault.set_status valid v)
         else ret tt) ;;;
       m <- next_batch_marker E res ;;
       p <- get_project project ;;
       p' <- lift (Projects.set_marker (rules E) m p) ;;
       put_project project p' ;;;
       ret true
     else
       raise (RuntimeError (error_text "Failed to List Vaults. " res)))
      (with_uripath path s) = (Return r, s')).
  { destruct marker; rewrite bind_ReInit in H; eexists; exact H. }
  clear H. destruct Hgo as (path & H).
  rewrite bind_update_headers in H. rewrite bind_Uri, bind_Headers, bind_requests in H.
  cbv beta in H.
  match type of H with
  | context [reply ?E' ?s1 ?r'] => set (res := reply E' s1 r') in *; set (req := r') in *
  end.
  assert (Hres : res = reply E s req) by reflexivity.
  destruct (Z.eqb_spec (status_code res) 200) as [H200|]; [|discriminate].
  unbind H. unbind H. unbind H.
  assert (Hsent : st_sent s2 = (st_sent s ++ [req])%list).
  { apply keeps_run with (f := st_sent) in Hm, Hm0, Hm1; try solve [keeps_auto].
    rewrite Hm1, Hm0, Hm. reflexivity. }
  unbind H. apply next_batch_marker_inv in Hm2 as [-> Hafter].
  unbind H. apply get_project_inv in Hm2 as [-> Hp2].
  unbind H. apply lift_inv in Hm2 as [-> Hset].
  apply Projects_set_marker_inv in Hset.
  rewrite bind_put_project in H. apply ret_inv in H as [-> _].
  eexists req, _. rewrite <- Hres. split; [exact Hsent|]. split; [exact H200|]. split.
  { cbn [st_projects with_projects]. eapply lookup_put; eassumption. }
  rewrite Hset. exact Hafter.
Qed.

(** *** A well-formed listing response is accepted *)

(** Decides the tests of a method on the status of the answer, given the
    status. *)
Ltac status H :=
  match type of H with
  | status_code _ = ?c =>
      repeat match goal with
             | |- context [Z.eqb (status_code ?r) _] =>
                 replace (status_code r) with c by (symmetry; exact H)
             end
  end;
  cbn [Z.eqb Pos.eqb orb].

(** Runs a method through its request. *)
Ltac request := rrun; rewrite bind_requests.

(** Decodes the body of the answer, given what it decodes to. *)
Ltac body H :=
  unfold res_json;
  match type of H with
  | json _ = ?j =>
      repeat match goal with
             | |- context [json ?r] => replace (json r) with j by (symmetry; exact H)
             end
  end.

(** A step whose run is known. *)
Lemma bind_run {A B} (m : M A) (k : A -> M B) s a s1 :
  m s = (Return a, s1) -> bind m k s = k a s1.
Proof. intros H. unfold bind. rewrite H. reflexivity. Qed.


Lemma GetBlockList_body_ok vault v bid s :
  st_vaults s !! vault = Some v ->
  val_project_id (rules E) (Vault.project_id v) = true ->
  val_vault_id (rules E) (Vault.vault_id v) = true ->
  val_metadata_block_id (rules E) bid = true ->
  exists v' s',
    GetBlockList_body E vault (PStr bid) s = (Return bid, s')
    /\ st_vaults s' !! vault = Some v'
    /\ Vault.project_id v' = Vault.project_id v
    /\ Vault.vault_id v' = Vault.vault_id v.
Proof.
  intros Hv Hp Hvid Hb. unfold GetBlockList_body. mrun.
  cbn [as_block_id]. mrun. unfold Block.new. rewrite Hp, Hvid. cbn [negb from_option].
  rewrite Hb. cbn [negb]. mrun.
  unfold Blocks.setitem. rewrite Hb. cbn [negb]. mrun.
  eexists _, _. split; [reflexivity|]. split; [store|]. split; reflexivity.
Qed.

Lemma GetBlockList_loop_ok vault bids : forall v s,
  st_vaults s !! vault = Some v ->
  val_project_id (rules E) (Vault.project_id v) = true ->
  val_vault_id (rules E) (Vault.vault_id v) = true ->
  Forall (fun bid => val_metadata_block_id (rules E) bid = true) bids ->
  exists v' s',
    comprehension (map PStr bids) (GetBlockList_body E vault) s = (Return bids, s')
    /\ st_vaults s' !! vault = Some v'.
Proof.
  induction bids as [|bid bids IH]; intros v s Hv Hp Hvid Hall.
  - exists v, s. split; [reflexivity|exact Hv].
  - inversion Hall as [|? ? Hb Hall']; subst.
    destruct (GetBlockList_body_ok vault v bid s Hv Hp Hvid Hb)
      as (v1 & s1 & Hrun & Hv1 & Hp1 & Hvid1).
    destruct (IH v1 s1 Hv1) as (v' & s' & Hloop & Hv'); try congruence; try assumption.
    exists v', s'. split; [|exact Hv'].
    cbn [comprehension map]. unfold bind. rewrite Hrun, Hloop. reflexivity.
Qed.

Lemma GetBlockList_returns vault v marker limit bids s :
  let path := listing_path (get_blocks_path (api_v1 E) (Vault.vault_id v)) "," marker limit in
  let res := reply E s (plain_request E GET path s) in
  st_vaults s !! vault = Some v ->
  status_code res = 200 ->
  json res = Some (PList (map PStr bids)) ->
  val_project_id (rules E) (Vault.project_id v) = true ->
  val_vault_id (rules E) (Vault.vault_id v) = true ->
  Forall (fun bid => val_metadata_block_id (rules E) bid = true) bids ->
  continuation_ok E (val_metadata_block_id (rules E)) res ->
  exists s', GetBlockList E vault marker limit s = (Return bids, s').
Proof.
  intros path res Hv H200 Hjson Hp Hvid Hall Hcont. expand.
  unfold GetBlockList. mrun. send. rewrite listing_url.
  rewrite H200. cbn [Z.eqb Pos.eqb].
  unfold res_json. rewrite Hjson. mrun. cbn [py_iter]. mrun.
  match goal with
  | |- context [bind (comprehension _ _) _ ?s1] =>
      destruct (GetBlockList_loop_ok vault bids v s1) as (v' & s' & Hloop & Hv');
        [store|assumption..|]
  end.
  unfold bind at 1. rewrite Hloop.
  destruct Hcont as [Hnone|(m & Hm & Hok)].
  - unfold bind at 1. rewrite (next_batch_marker_none _ _ _ Hnone).
    mrun. cbn [Blocks.set_marker from_option negb]. mrun. eexists. reflexivity.
  - unfold bind at 1. rewrite (next_batch_marker_carries _ _ _ _ Hm).
    mrun. unfold Blocks.set_marker. cbn [from_option]. rewrite Hok. cbn [negb].
    mrun. eexists. reflexivity.
Qed.

Lemma GetFileBlockList_body_ok vault v file_id f p s :
  st_vaults s !! vault = Some v ->
  sget file_id (Files.items (Vault.files v)) = Some f ->
  Py.hashable (snd p) = true ->
  exists v' f' s',
    GetFileBlockList_body vault file_id (offset_entry p) s = (Return (fst p), s')
    /\ st_vaults s' !! vault = Some v'
    /\ sget file_id (Files.items (Vault.files v')) = Some f'.
Proof.
  intros Hv Hf Hh. unfold GetFileBlockList_body, offset_entry.
  cbn [py_unpack2 py_iter]. mrun.
  rewrite (bind_getitem_file _ _ _ _ _ Hf). cbn [fst snd].
  unfold dict_setitem. rewrite Hh. mrun.
  eexists _, _, _. split; [reflexivity|]. split; [store|].
  cbn [Vault.files Vault.set_files Files.items]. apply sget_sset.
Qed.

Lemma GetFileBlockList_loop_ok vault file_id pairs : forall v f s,
  st_vaults s !! vault = Some v ->
  sget file_id (Files.items (Vault.files v)) = Some f ->
  Forall (fun p => Py.hashable (snd p) = true) pairs ->
  exists s',
    comprehension (map offset_entry pairs) (GetFileBlockList_body vault file_id) s
    = (Return (map fst pairs), s').
Proof.
  induction pairs as [|p pairs IH]; intros v f s Hv Hf Hall.
  - exists s. reflexivity.
  - inversion Hall as [|? ? Hp Hall']; subst.
    destruct (GetFileBlockList_body_ok vault v file_id f p s Hv Hf Hp)
      as (v1 & f1 & s1 & Hrun & Hv1 & Hf1).
    destruct (IH v1 f1 s1 Hv1 Hf1 Hall') as (s' & Hloop).
    exists s'. cbn [comprehension map]. unfold bind. rewrite Hrun, Hloop. reflexivity.
Qed.

Lemma GetFileBlockList_returns vault v file_id f marker limit pairs s :
  let path := listing_path (get_fileblocks_path (api_v1 E) (Vault.vault_id v) file_id)
                "," marker limit in
  let res := reply E s (plain_request E GET path s) in
  st_vaults s !! vault = Some v ->
  sget file_id (Files.items (Vault.files v)) = Some f ->
  status_code res = 200 ->
  json res = Some (PList (map offset_entry pairs)) ->
  Forall (fun p => Py.hashable (snd p) = true) pairs ->
  continuation_ok E (fun _ => true) res ->
  exists next_marker s',
    GetFileBlockList E vault file_id marker limit s
    = (Return (map fst pairs, next_marker), s').
Proof.
  intros path res Hv Hf H200 Hjson Hall Hcont. expand.
  unfold GetFileBlockList. mrun. rewrite (Files_get_contains _ _ _ Hf). cbn [negb].
  mrun. send. rewrite listing_url.
  rewrite H200. cbn [Z.eqb Pos.eqb].
  unfold res_json. rewrite Hjson. mrun. cbn [py_iter]. mrun.
  match goal with
  | |- context [bind (comprehension _ _) _ ?s1] =>
      destruct (GetFileBlockList_loop_ok vault file_id pairs v f s1) as (s' & Hloop);
        [store|assumption..|]
  end.
  unfold bind at 1. rewrite Hloop.
  destruct Hcont as [Hnone|(m & Hm & _)].
  - unfold bind at 1. rewrite (next_batch_marker_none _ _ _ Hnone).
    eexists _, _. reflexivity.
  - unfold bind at 1. rewrite (next_batch_marker_carries _ _ _ _ Hm).
    eexists _, _. reflexivity.
Qed.

Lemma storage_blocks_of_ok vault v sids : forall acc s,
  st_vaults s !! vault = Some v ->
  val_project_id (rules E) (project_id E) = true ->
  val_vault_id (rules E) (Vault.vault_id v) = true ->
  Forall (fun sid => val_storage_block_id (rules E) sid = true) sids ->
  Forall (fun sid => val_storage_block_id (rules E) sid = true) (map fst acc) ->
  exists blocks s',
    storage_blocks_of E vault (map PStr sids) acc s = (Return blocks, s')
    /\ st_vaults s' = st_vaults s
    /\ st_sent s' = st_sent s
    /\ Forall (fun sid => val_storage_block_id (rules E) sid = true) (map fst blocks).
Proof.
  induction sids as [|sid sids IH]; intros acc s Hv Hp Hvid Hall Hacc.
  - exists acc, s. repeat split. exact Hacc.
  - inversion Hall as [|? ? Hsid Hall']; subst.
    cbn [storage_blocks_of map as_storage_id]. mrun.
    unfold Block.new. rewrite Hp, Hvid. cbn [negb from_option]. rewrite Hsid. cbn [negb].
    mrun.
    match goal with
    | |- context [storage_blocks_of E vault _ ?acc' ?s1] =>
        destruct (IH acc' s1) as (blocks & s' & Hrun & Hvs & Hsent & Hkeys);
          [store|assumption..| |]
    end.
    + apply keys_sset; assumption.
    + exists blocks, s'. split; [exact Hrun|]. split; [|split]; assumption.
Qed.

Lemma GetBlockStorageList_returns vault v marker limit sids s :
  let path := listing_path (get_storage_blocks_path (api_v1 E) (Vault.vault_id v))
                "&" marker limit in
  let res := reply E s (plain_request E GET path s) in
  st_vaults s !! vault = Some v ->
  status_code res = 200 ->
  json res = Some (PList (map PStr sids)) ->
  val_project_id (rules E) (project_id E) = true ->
  val_vault_id (rules E) (Vault.vault_id v) = true ->
  Forall (fun sid => val_storage_block_id (rules E) sid = true) sids ->
  continuation_ok E (val_storage_block_id (rules E)) res ->
  exists s', GetBlockStorageList E vault marker limit s = (Return (map PStr sids), s').
Proof.
  intros path res Hv H200 Hjson Hp Hvid Hall Hcont. expand.
  unfold GetBlockStorageList. mrun. send. rewrite listing_url.
  rewrite H200. cbn [Z.eqb Pos.eqb]. mrun.
  unfold StorageBlocks.new. rewrite Hp, Hvid. cbn [negb]. mrun.
  unfold res_json. rewrite Hjson. mrun. cbn [py_iter]. mrun.
  match goal with
  | |- context [bind (storage_blocks_of E vault _ _) _ ?s1] =>
      destruct (storage_blocks_of_ok vault v sids [] s1)
        as (blocks & s2 & Hrun & Hvs & _ & Hkeys);
        [store|assumption..|constructor|]
  end.
  unfold bind at 1. rewrite Hrun.
  destruct (StorageBlocks_update_ok (rules E) blocks
              (StorageBlocks.mk [] None (project_id E) (Vault.vault_id v)) Hkeys)
    as (block_list & Hupd & Hkeys').
  rewrite Hupd. mrun.
  assert (Hv2 : st_vaults s2 !! vault = Some v).
  { rewrite Hvs. store. }
  rewrite (bind_get_vault _ _ _ _ Hv2).
  destruct (StorageBlocks_update_ok (rules E) (StorageBlocks.items block_list)
              (Vault.storageblocks v) (Hkeys' (Forall_nil _)))
    as (sb & Hupd2 & _).
  rewrite Hupd2. mrun.
  destruct Hcont as [Hnone|(m & Hm & Hok)].
  - unfold bind at 1. rewrite (next_batch_marker_none _ _ _ Hnone).
    mrun. cbn [StorageBlocks.set_marker from_option negb]. mrun. eexists. reflexivity.
  - unfold bind at 1. rewrite (next_batch_marker_carries _ _ _ _ Hm).
    mrun. unfold StorageBlocks.set_marker. cbn [from_option]. rewrite Hok. cbn [negb].
    mrun. eexists. reflexivity.
Qed.

(** The state after a listing of vaults: vault objects were added, the
    project was updated, nothing else moved. *)
Lemma ListVaults_loop project entries : forall s p,
  st_projects s !! project = Some p ->
  val_project_id (rules E) (Projects.project_id p) = true ->
  Forall (fun name => val_vault_id (rules E) name = true) (map fst entries) ->
  exists added p',
    for_each entries (fun entry : string * pyval =>
      p <- get_project project ;;
      if negb (Projects.contains (fst entry) p) then
        v <- lift (Vault.new (rules E) (Projects.project_id p) (fst entry)) ;;
        vault <- new_vault v ;;
        p <- get_project project ;;
        p' <- lift (Projects.setitem (rules E) (fst entry) vault p) ;;
        put_project project p' ;;;
        p <- get_project project ;;
        vault <- lift (Projects.getitem (fst entry) p) ;;
        v <- get_vault vault ;;
        put_vault vault (Vault.set_status valid v)
      else ret tt) s
    = (Return tt,
       mk_state (st_vaults s ++ added)%list (st_blocks s)
         (<[project := p']> (st_projects s)) (st_uripath s) (st_headers s) (st_sent s))
    /\ Projects.project_id p' = Projects.project_id p
    /\ Projects.marker p' = Projects.marker p
    /\ (forall name l,
          sget name (Projects.items p) = Some l -> sget name (Projects.items p') = Some l)
    /\ (forall name,
          In name (map fst entries) -> sget name (Projects.items p) = None ->
          exists l,
            sget name (Projects.items p') = Some l
            /\ (length (st_vaults s) <= l)%nat
            /\ (st_vaults s ++ added)%list !! l
               = Some (found_vault (Projects.project_id p) name)).
Proof.
  induction entries as [|[name data] entries IH]; intros s p Hp Hpid Hall.
  - exists [], p. cbn [for_each]. split.
    { unfold ret. f_equal. destruct s. cbn in *.
      rewrite app_nil_r. rewrite list_insert_id by exact Hp. reflexivity. }
    repeat split; auto. intros name [].
  - inversion Hall as [|? ? Hname Hall']; subst. cbn [fst] in Hname.
    destruct (sget name (Projects.items p)) as [l0|] eqn:Hknown.
    + destruct (IH s p Hp Hpid Hall') as (added & p' & Hrun & Hid & Hmk & Hold & Hnew).
      exists added, p'. split.
      { assert (Hc : Projects.contains name p = true).
        { unfold Projects.contains, Dict.mem. rewrite Hknown. reflexivity. }
        cbn [for_each fst]. rewrite bind_assoc. rewrite (bind_get_project _ _ _ _ Hp).
        rewrite Hc. cbn [negb]. rewrite bind_ret. exact Hrun. }
      repeat split; try assumption.
      intros n [Hn|Hn] Hnone; [cbn [fst] in Hn; congruence|].
      apply Hnew; assumption.
    + set (p1 := Projects.mk (sset name (length (st_vaults s)) (Projects.items p))
                   (Projects.marker p) (Projects.project_id p)).
      set (s1 := mk_state
                   (st_vaults s ++ [found_vault (Projects.project_id p) name])%list
                   (st_blocks s) (<[project := p1]> (st_projects s))
                   (st_uripath s) (st_headers s) (st_sent s)).
      assert (Hp1 : st_projects s1 !! project = Some p1).
      { subst s1. cbn [st_projects]. eapply lookup_put. exact Hp. }
      destruct (IH s1 p1 Hp1 Hpid Hall') as (added & p' & Hrun & Hid & Hmk & Hold & Hnew).
      exists (found_vault (Projects.project_id p) name :: added), p'.
      split.
      { assert (Hc : Projects.contains name p = false).
        { unfold Projects.contains, Dict.mem. rewrite Hknown. reflexivity. }
        assert (Hv0 : Vault.new (rules E) (Projects.project_id p) name
                      = Return (Vault.set_status unknown
                                  (found_vault (Projects.project_id p) name))).
        { unfold Vault.new. rewrite Hpid, Hname. reflexivity. }
        assert (Hset : Projects.setitem (rules E) name (length (st_vaults s)) p = Return p1).
        { unfold Projects.setitem. rewrite Hname. reflexivity. }
        assert (Hget : Projects.getitem name p1 = Return (length (st_vaults s))).
        { unfold Projects.getitem. subst p1. cbn [Projects.items]. rewrite sget_sset.
          reflexivity. }
        cbn [for_each fst]. rewrite bind_assoc. rewrite (bind_get_project _ _ _ _ Hp).
        rewrite Hc. cbn [negb]. rewrite Hv0. mrun.
        erewrite bind_get_project by store.
        rewrite Hset. mrun. rewrite bind_put_project. mrun.
        erewrite bind_get_project by store.
        rewrite Hget. mrun.
        cbn [st_vaults with_vaults with_projects st_projects st_blocks st_uripath
             st_headers st_sent].
        rewrite put_new.
        refine (eq_trans _ (eq_trans Hrun _)); [reflexivity|].
        unfold ret. f_equal. subst s1.
        cbn [st_vaults st_projects st_blocks st_uripath st_headers st_sent].
        rewrite <- app_assoc. rewrite list_insert_insert_eq. reflexivity. }
      split; [exact Hid|]. split; [exact Hmk|]. split.
      { intros n l Hn. apply Hold. subst p1. cbn [Projects.items].
        rewrite sget_sset_ne; [exact Hn|]. intros ->. congruence. }
      intros n Hin Hnone. cbn [map fst] in Hin.
      destruct (String.eqb_spec n name) as [->|Hne].
      * exists (length (st_vaults s)). split; [|split; [lia|]].
        { apply Hold. subst p1. cbn [Projects.items]. apply sget_sset. }
        { rewrite lookup_app_r by lia. rewrite Nat.sub_diag. reflexivity. }
      * destruct Hin as [Hin|Hin]; [congruence|].
        destruct (Hnew n Hin) as (l & Hl & Hlen & Hat).
        { subst p1. cbn [Projects.items]. rewrite sget_sset_ne by exact Hne. exact Hnone. }
        exists l. split; [exact Hl|]. subst s1.
        cbn [st_vaults] in Hlen, Hat.
        rewrite length_app in Hlen. cbn [length] in Hlen.
        split; [lia|]. rewrite <- app_assoc in Hat. exact Hat.
Qed.

Lemma ListVaults_returns project p marker entries s :
  let path := listing_path (get_vault_base_path (api_v1 E)) "," marker None in
  let res := reply E s (plain_request E GET path s) in
  st_projects s !! project = Some p ->
  status_code res = 200 ->
  json res = Some (PDict entries) ->
  val_project_id (rules E) (Projects.project_id p) = true ->
  Forall (fun name => val_vault_id (rules E) name = true) (map fst entries) ->
  continuation_ok E (val_vault_id (rules E)) res ->
  exists added p' s',
    ListVaults E project marker s = (Return true, s')
    /\ st_vaults s' = (st_vaults s ++ added)%list
    /\ st_blocks s' = st_blocks s
    /\ st_projects s' !! project = Some p'
    /\ (forall name l,
          sget name (Projects.items p) = Some l -> sget name (Projects.items p') = Some l)
    /\ (forall name,
          In name (map fst entries) -> sget name (Projects.items p) = None ->
          exists l,
            sget name (Projects.items p') = Some l
            /\ (length (st_vaults s) <= l)%nat
            /\ st_vaults s' !! l = Some (found_vault (Projects.project_id p) name)).
Proof.
  intros path res Hp H200 Hjson Hpid Hall Hcont. subst path res.
  unfold plain_request in *.
  assert (Hgo : forall path0,
    path0 = listing_path (get_vault_base_path (api_v1 E)) "," marker None ->
    ListVaults E project marker s
    = (update_headers E ;;;
       uri <- Uri E ;; h <- Headers ;;
       res <- requests E GET uri h None false ;;
       if Z.eqb (status_code res) 200 then
         j <- res_json res ;;
         entries <- py_items j ;;
         for_each entries (fun entry =>
           let vault_name := fst entry in
           p <- get_project project ;;
           if negb (Projects.contains vault_name p) then
             v <- lift (Vault.new (rules E) (Projects.project_id p) vault_name) ;;
             vault <- new_vault v ;;
             p <- get_project project ;;
             p' <- lift (Projects.setitem (rules E) vault_name vault p) ;;
             put_project project p' ;;;
             p <- get_project project ;;
             vault <- lift (Projects.getitem vault_name p) ;;
             v <- get_vault vault ;;
             put_vault vault (Vault.set_status valid v)
           else ret tt) ;;;
         m <- next_batch_marker E res ;;
         p <- get_project project ;;
         p' <- lift (Projects.set_marker (rules E) m p) ;;
         put_project project p' ;;;
         ret true
       else
         raise (RuntimeError (error_text "Failed to List Vaults. " res)))
        (with_uripath path0 s)).
  { intros path0 ->. unfold ListVaults. rewrite (bind_get_project _ _ _ _ Hp).
    destruct marker; rewrite bind_ReInit; reflexivity. }
  rewrite (Hgo _ eq_refl). clear Hgo.
  rewrite bind_update_headers, bind_Uri, bind_Headers, bind_requests.
  status H200. body Hjson. rrun. cbn [py_items]. rrun.
  match goal with
  | |- context [bind (for_each entries ?f) ?k ?s1] =>
      destruct (ListVaults_loop project entries s1 p)
        as (added & p1 & Hloop & Hid & Hmk & Hold & Hnew); [store|assumption..|];
      rewrite (bind_run (for_each entries f) k s1 tt _ Hloop)
  end.
  cbn [st_vaults st_blocks st_projects st_uripath st_headers st_sent
       with_sent with_headers with_uripath] in *.
  assert (Hdone : forall m,
    Projects.set_marker (rules E) m p1
    = Return (Projects.mk (Projects.items p1) m (Projects.project_id p1)) ->
    forall s1,
      st_projects s1 !! project = Some p1 ->
      (p <- get_project project ;;
       p' <- lift (Projects.set_marker (rules E) m p) ;;
       put_project project p' ;;;
       ret true) s1
      = (Return true,
         with_projects
           (<[project := Projects.mk (Projects.items p1) m (Projects.project_id p1)]>
              (st_projects s1)) s1)).
  { intros m Hm s1 Hs1. rewrite (bind_get_project _ _ _ _ Hs1). rewrite Hm. mrun.
    rewrite bind_put_project. reflexivity. }
  destruct Hcont as [Hnone|(m & Hm & Hok)].
  - erewrite bind_run by (apply next_batch_marker_none; exact Hnone).
    rewrite Hdone; [|reflexivity|cbn [st_projects]; eapply lookup_put; exact Hp].
    eexists added, _, _. split; [reflexivity|].
    cbn [st_vaults st_blocks st_projects with_projects].
    split; [reflexivity|]. split; [reflexivity|].
    split; [eapply lookup_put; eapply lookup_put; exact Hp|].
    split; assumption.
  - erewrite bind_run by (apply next_batch_marker_carries; exact Hm).
    rewrite Hdone;
      [|unfold Projects.set_marker; cbn [from_option]; rewrite Hok; reflexivity
       |cbn [st_projects]; eapply lookup_put; exact Hp].
    eexists added, _, _. split; [reflexivity|].
    cbn [st_vaults st_blocks st_projects with_projects].
    split; [reflexivity|]. split; [reflexivity|].
    split; [eapply lookup_put; eapply lookup_put; exact Hp|].
    split; assumption.
Qed.


(** *** Failures *)

(** The end of a method: the request goes out and the answer is handed
    to a continuation that sends nothing more. *)
Lemma uniform_tail {A} codes vb uri headers data stream (k : response -> M A) s s1 :
  st_sent s1 = st_sent s ->
  (forall res, keeps st_sent (k res)) ->
  (forall res,
      ~ In (status_code res) codes ->
      exists label,
        fst (k res (with_sent (st_sent s1 ++ [mk_request vb uri headers data stream])%list s1))
        = Raise (RuntimeError (error_text label res))) ->
  let m := bind (requests E vb uri headers data stream) k in
  st_sent (snd (m s1)) = st_sent s
  \/ exists req,
       st_sent (snd (m s1)) = (st_sent s ++ [req])%list
       /\ (~ In (status_code (reply E s req)) codes ->
           exists label,
             fst (m s1) = Raise (RuntimeError (error_text label (reply E s req)))).
Proof.
  intros Hs Hk Hfail m. subst m. right. rewrite bind_requests.
  exists (mk_request vb uri headers data stream). split.
  - apply keeps_after; [apply Hk|]. cbn [st_sent with_sent]. rewrite Hs. reflexivity.
  - intros Hcode. unfold reply in *.
    replace (transport E (st_sent s1) (mk_request vb uri headers data stream))
      with (transport E (st_sent s) (mk_request vb uri headers data stream))
      by (rewrite Hs; reflexivity).
    apply Hfail. exact Hcode.
Qed.

Ltac no_vault Hv := rewrite (bind_get_vault_None _ _ _ Hv); left; reflexivity.
Ltac no_block Hb := rewrite (bind_get_block_None _ _ _ Hb); left; reflexivity.

(** Opens the vault (and block) argument of a method. *)
Ltac open_vault vault :=
  match goal with
  | s : state |- _ =>
      let v := fresh "v" in
      let Hv := fresh "Hv" in
      destruct (st_vaults s !! vault) as [v|] eqn:Hv;
      [rewrite (bind_get_vault _ _ _ _ Hv) | no_vault Hv]
  end.

Ltac open_block block :=
  match goal with
  | s : state |- _ =>
      let b := fresh "b" in
      let Hb := fresh "Hb" in
      destruct (st_blocks s !! block) as [b|] eqn:Hb;
      [rewrite (bind_get_block _ _ _ _ Hb) | no_block Hb]
  end.

(** Runs a method up to its request and splits on the status. *)
Ltac to_request := rrun; apply uniform_tail; [reflexivity | intros; keeps_auto | ].

Ltac on_status :=
  let res := fresh "res" in
  let Hcode := fresh "Hcode" in
  intros res Hcode;
  repeat match goal with
         | |- context [Z.eqb (status_code res) ?c] =>
             let Heq := fresh "Heq" in
             destruct (Z.eqb_spec (status_code res) c) as [Heq|_];
             [exfalso; apply Hcode; rewrite Heq; cbn; tauto|]
         end;
  cbn [orb]; rrun; eexists; reflexivity.

Lemma ListVaults_uniform project marker :
  uniform_failure E [200] (ListVaults E project marker).
Proof.
  intros s. unfold ListVaults.
  destruct (st_projects s !! project) as [p|] eqn:Hp.
  - rewrite (bind_get_project _ _ _ _ Hp).
    destruct marker; to_request; on_status.
  - rewrite (bind_get_project_None _ _ _ Hp). left. reflexivity.
Qed.

Lemma CreateVault_uniform name : uniform_failure E [201] (CreateVault E name).
Proof. intros s. unfold CreateVault. to_request. on_status. Qed.

Lemma DeleteVault_uniform vault : uniform_failure E [204] (DeleteVault E vault).
Proof. intros s. unfold DeleteVault. open_vault vault. to_request. on_status. Qed.

Lemma VaultExists_uniform vault : uniform_failure E [204; 404] (VaultExists E vault).
Proof.
  intros s. unfold VaultExists. destruct vault as [vault|name].
  - rewrite bind_assoc. open_vault vault. to_request. on_status.
  - to_request. on_status.
Qed.

Lemma GetVault_uniform name : uniform_failure E [204; 404] (GetVault E name).
Proof.
  intros s. unfold GetVault, VaultExists. rewrite bind_assoc. to_request.
  on_status.
Qed.

Lemma GetVaultStatistics_uniform vault :
  uniform_failure E [200] (GetVaultStatistics E vault).
Proof. intros s. unfold GetVaultStatistics. open_vault vault. to_request. on_status. Qed.

Lemma GetBlockList_uniform vault marker limit :
  uniform_failure E [200] (GetBlockList E vault marker limit).
Proof. intros s. unfold GetBlockList. open_vault vault. to_request. on_status. Qed.

Lemma HeadBlock_uniform vault block : uniform_failure E [204] (HeadBlock E vault block).
Proof.
  intros s. unfold HeadBlock. open_vault vault. open_block block.
  to_request. on_status.
Qed.

Lemma UploadBlock_uniform vault block : uniform_failure E [201] (UploadBlock E vault block).
Proof.
  intros s. unfold UploadBlock. open_vault vault. open_block block.
  to_request. on_status.
Qed.

Lemma DeleteBlock_uniform vault block : uniform_failure E [204] (DeleteBlock E vault block).
Proof.
  intros s. unfold DeleteBlock. open_vault vault. open_block block.
  to_request. on_status.
Qed.

Lemma DownloadBlock_uniform vault block :
  uniform_failure E [200] (DownloadBlock E vault block).
Proof.
  intros s. unfold DownloadBlock. open_vault vault. open_block block.
  to_request. on_status.
Qed.

Lemma CreateFile_uniform vault : uniform_failure E [201] (CreateFile E vault).
Proof. intros s. unfold CreateFile. open_vault vault. to_request. on_status. Qed.

Lemma DeleteFile_uniform vault file_id :
  uniform_failure E [204] (DeleteFile E vault file_id).
Proof. intros s. unfold DeleteFile. open_vault vault. to_request. on_status. Qed.

Lemma DownloadFile_uniform vault file_id output_file chunk_size :
  uniform_failure E [200] (DownloadFile E vault file_id output_file chunk_size).
Proof. intros s. unfold DownloadFile. open_vault vault. to_request. on_status. Qed.

Lemma GetFileBlockList_uniform vault file_id marker limit :
  uniform_failure E [200] (GetFileBlockList E vault file_id marker limit).
Proof.
  intros s. unfold GetFileBlockList. open_vault vault.
  destruct (negb _); [left; reflexivity|].
  to_request. on_status.
Qed.

Lemma DownloadBlockStorageData_uniform vault block :
  uniform_failure E [200] (DownloadBlockStorageData E vault block).
Proof.
  intros s. unfold DownloadBlockStorageData. open_vault vault. open_block block.
  to_request. on_status.
Qed.

Lemma DeleteBlockStorage_uniform vault block :
  uniform_failure E [204] (DeleteBlockStorage E vault block).
Proof.
  intros s. unfold DeleteBlockStorage. open_vault vault. open_block block.
  to_request. on_status.
Qed.

Lemma GetBlockStorageList_uniform vault marker limit :
  uniform_failure E [200] (GetBlockStorageList E vault marker limit).
Proof. intros s. unfold GetBlockStorageList. open_vault vault. to_request. on_status. Qed.

Lemma HeadBlockStorage_uniform vault block :
  uniform_failure E [204] (HeadBlockStorage E vault block).
Proof.
  intros s. unfold HeadBlockStorage. open_vault vault. open_block block.
  to_request. on_status.
Qed.

Lemma check_block_ids_keeps_state vault file_id block_ids :
  keeps (fun s => s) (check_block_ids vault file_id block_ids).
Proof.
  induction block_ids as [|[b o] ids IH]; cbn [check_block_ids]; keeps_auto.
Qed.

(** A step that keeps the whole state either raises there or goes on
    from there. *)
Lemma bind_keeps_state {A B} (m : M A) (k : A -> M B) s :
  keeps (fun s => s) m ->
  (exists e, bind m k s = (Raise e, s)) \/ (exists a, bind m k s = k a s).
Proof.
  intros Hm. specialize (Hm s). unfold bind.
  destruct (m s) as [[a|e] s1]; cbn in Hm; subst s1; eauto.
Qed.

Lemma AssignBlocksToFile_uniform vault file_id block_ids :
  uniform_failure E [200] (AssignBlocksToFile E vault file_id block_ids).
Proof.
  intros s. unfold AssignBlocksToFile. open_vault vault.
  destruct (negb _); [left; reflexivity|].
  destruct block_ids as [ids|].
  - destruct (Z.eqb _ 0); [left; reflexivity|].
    match goal with
    | |- context [bind (check_block_ids vault file_id ids) ?k ?s1] =>
        destruct (bind_keeps_state (check_block_ids vault file_id ids) k s1
                    (check_block_ids_keeps_state vault file_id ids))
          as [[e He]|[[] Hgo]]
    end.
    + rewrite He. left. reflexivity.
    + rewrite Hgo. to_request. on_status.
  - rewrite bind_assoc. rewrite (bind_get_vault _ _ _ _ Hv).
    rewrite bind_assoc.
    destruct (Files.getitem file_id (Vault.files v)) as [f|e] eqn:Hf;
      [rewrite bind_lift_Return|rewrite bind_lift_Raise; left; reflexivity].
    destruct (Z.eqb _ 0); [left; reflexivity|].
    rrun. rewrite Hf. to_request. on_status.
Qed.

Lemma UploadBlocks_uniform vault block_ids :
  uniform_failure E [201] (UploadBlocks E vault block_ids).
Proof.
  intros s. unfold UploadBlocks. open_vault vault. rrun.
  match goal with
  | |- context [bind (comprehension block_ids ?f) ?k ?s1] =>
      destruct (bind_keeps_state (comprehension block_ids f) k s1) as [[e He]|[a Hgo]];
        [keeps_auto| |]
  end.
  - rewrite He. left. reflexivity.
  - rewrite Hgo. to_request. on_status.
Qed.

(** What [FinalizeFile] does with an answer that is neither 200 nor 204
    and whose body is JSON: the failure carries the decoded body, not the
    status code. *)
Lemma FinalizeFile_failure vault v file_id f s :
  st_vaults s !! vault = Some v ->
  sget file_id (Files.items (Vault.files v)) = Some f ->
  let path := get_file_path (api_v1 E) (Vault.vault_id v) file_id in
  let headers := sset "X-File-Length" (PInt (File.len f))
                   (Dict.update String.eqb (auth_headers E s) []) in
  let req := mk_request POST (uri_of E path) headers None false in
  let res := reply E s req in
  st_sent (snd (FinalizeFile E vault file_id s)) = (st_sent s ++ [req])%list
  /\ (status_code res = 200 \/ status_code res = 204 ->
      fst (FinalizeFile E vault file_id s) = Return true)
  /\ (status_code res <> 200 -> status_code res <> 204 ->
      forall j, json res = Some j ->
      fst (FinalizeFile E vault file_id s)
      = Raise (RuntimeError ("Failed to finalize file. Details: " +:+ Py.str j))).
Proof.
  intros Hv Hf path headers req res. expand.
  unfold FinalizeFile. rrun. rewrite (Files_get_contains _ _ _ Hf). cbn [negb].
  rrun. rewrite (bind_getitem_file _ _ _ _ _ Hf). rrun.
  rewrite bind_requests. split; [|split].
  - apply keeps_after; [keeps_auto|reflexivity].
  - intros Hok.
    match goal with
    | |- context [Z.eqb (status_code ?r) 200] =>
        assert (Hb : Z.eqb (status_code r) 200 || Z.eqb (status_code r) 204 = true)
    end.
    { apply orb_true_iff. destruct Hok as [Hok|Hok]; [left|right];
        apply Z.eqb_eq; exact Hok. }
    rewrite Hb. reflexivity.
  - intros H200 H204 j Hj.
    match goal with
    | |- context [Z.eqb (status_code ?r) 200] =>
        destruct (Z.eqb_spec (status_code r) 200) as [Heq|_];
          [exfalso; apply H200; exact Heq|];
        destruct (Z.eqb_spec (status_code r) 204) as [Heq|_];
          [exfalso; apply H204; exact Heq|];
        cbn [orb]; unfold res_json;
        replace (json r) with (Some j) by (symmetry; exact Hj)
    end.
    reflexivity.
Qed.

(** C3. The marker of a listing follows the continuation of its answer.
    Whenever [GetBlockList], [GetFileBlockList] or [GetBlockStorageList]
    returns, it has sent one request and the answer had status 200.  The
    marker that the answer stands for is the first value of the field
    [marker] of the query of the URL in its [x-next-batch] header, as the
    URL library splits that URL, when the header is there, and [None]
    when it is not.  [GetBlockList] stores that marker on the blocks of
    the vault and leaves the storage blocks and the files of the vault as
    they were; [GetBlockStorageList] stores it on the storage blocks and
    leaves the blocks and the files as they were; [GetFileBlockList]
    returns it to the caller and stores it nowhere: the blocks and the
    storage blocks of the vault, with their markers, and the marker of
    its files are as they were.  The same holds of [ListVaults] and the
    marker of the project.  And the listings do return on a well-formed
    answer: status 200, a JSON array of ids that pass the rule of the
    collection (of pairs with a hashable offset for the file-block
    listing, a JSON object whose keys pass the rule of vault ids for the
    vault listing) and a continuation, if any, that the URL library
    accepts and whose marker passes that rule. *)
Theorem listing_marker_follows_continuation (vault : loc) (marker : option string)
    (limit : option Z) (s : state) :
  (forall ids s',
      GetBlockList E vault marker limit s = (Return ids, s') ->
      exists req v v',
        st_vaults s !! vault = Some v
        /\ st_sent s' = (st_sent s ++ [req])%list
        /\ status_code (reply E s req) = 200
        /\ st_vaults s' !! vault = Some v'
        /\ marker_after E (reply E s req) (Blocks.marker (Vault.blocks v'))
        /\ Vault.storageblocks v' = Vault.storageblocks v
        /\ Vault.files v' = Vault.files v)
  /\ (forall file_id ids next_marker s',
      GetFileBlockList E vault file_id marker limit s = (Return (ids, next_marker), s') ->
      exists req v v',
        st_vaults s !! vault = Some v
        /\ st_sent s' = (st_sent s ++ [req])%list
        /\ status_code (reply E s req) = 200
        /\ marker_after E (reply E s req) next_marker
        /\ st_vaults s' !! vault = Some v'
        /\ Vault.blocks v' = Vault.blocks v
        /\ Vault.storageblocks v' = Vault.storageblocks v
        /\ Files.marker (Vault.files v') = Files.marker (Vault.files v))
  /\ (forall ids s',
      GetBlockStorageList E vault marker limit s = (Return ids, s') ->
      exists req v v',
        st_vaults s !! vault = Some v
        /\ st_sent s' = (st_sent s ++ [req])%list
        /\ status_code (reply E s req) = 200
        /\ st_vaults s' !! vault = Some v'
        /\ marker_after E (reply E s req) (StorageBlocks.marker (Vault.storageblocks v'))
        /\ Vault.blocks v' = Vault.blocks v
        /\ Vault.files v' = Vault.files v)
  /\ (forall project r s',
      ListVaults E project marker s = (Return r, s') ->
      exists req p',
        st_sent s' = (st_sent s ++ [req])%list
        /\ status_code (reply E s req) = 200
        /\ st_projects s' !! project = Some p'
        /\ marker_after E (reply E s req) (Projects.marker p'))
  /\ (forall v,
      st_vaults s !! vault = Some v ->
      val_vault_id (rules E) (Vault.vault_id v) = true ->
      (forall block_ids,
          val_project_id (rules E) (Vault.project_id v) = true ->
          listing_response E PStr (fun b => val_metadata_block_id (rules E) b = true)
            (val_metadata_block_id (rules E)) block_ids
            (reply E s
               (plain_request E GET
                  (listing_path (get_blocks_path (api_v1 E) (Vault.vault_id v))
                     "," marker limit) s)) ->
          exists s', GetBlockList E vault marker limit s = (Return block_ids, s'))
      /\ (forall file_id f pairs,
          sget file_id (Files.items (Vault.files v)) = Some f ->
          listing_response E offset_entry (fun p => Py.hashable (snd p) = true)
            (fun _ => true) pairs
            (reply E s
               (plain_request E GET
                  (listing_path
                     (get_fileblocks_path (api_v1 E) (Vault.vault_id v) file_id)
                     "," marker limit) s)) ->
          exists next_marker s',
            GetFileBlockList E vault file_id marker limit s
            = (Return (map fst pairs, next_marker), s'))
      /\ (forall storage_ids,
          val_project_id (rules E) (project_id E) = true ->
          listing_response E PStr (fun b => val_storage_block_id (rules E) b = true)
            (val_storage_block_id (rules E)) storage_ids
            (reply E s
               (plain_request E GET
                  (listing_path (get_storage_blocks_path (api_v1 E) (Vault.vault_id v))
                     "&" marker limit) s)) ->
          exists s',
            GetBlockStorageList E vault marker limit s
            = (Return (map PStr storage_ids), s')))
  /\ (forall project p vaults,
      st_projects s !! project = Some p ->
      val_project_id (rules E) (Projects.project_id p) = true ->
      let res := reply E s
                   (plain_request E GET
                      (listing_path (get_vault_base_path (api_v1 E)) "," marker None) s) in
      status_code res = 200 ->
      json res = Some (PDict vaults) ->
      Forall (fun name => val_vault_id (rules E) name = true) (map fst vaults) ->
      continuation_ok E (val_vault_id (rules E)) res ->
      exists s', ListVaults E project marker s = (Return true, s')).
Proof.
  split; [|split; [|split; [|split; [|split]]]].
  - intros ids s'. apply GetBlockList_marker.
  - intros file_id ids next_marker s'. apply GetFileBlockList_marker.
  - intros ids s'. apply GetBlockStorageList_marker.
  - intros project r s'. apply ListVaults_marker.
  - intros v Hv Hvid. split; [|split].
    + intros bids Hp (H200 & Hjson & Hall & Hcont).
      eapply GetBlockList_returns; eassumption.
    + intros file_id f pairs Hf (H200 & Hjson & Hall & Hcont).
      eapply GetFileBlockList_returns; eassumption.
    + intros sids Hp (H200 & Hjson & Hall & Hcont).
      eapply GetBlockStorageList_returns; eassumption.
  - intros project p vaults Hp Hpid res H200 Hjson Hall Hcont.
    destruct (ListVaults_returns project p marker vaults s Hp H200 Hjson Hpid Hall Hcont)
      as (added & p' & s' & Hrun & _).
    exists s'. exact Hrun.
Qed.

(** C4, as the code has it.  Every method but [FinalizeFile] and the
    batch [DeleteBlocks] fails uniformly outside the status codes it
    handles (its success code; 204 and 404 for the existence check and
    for [GetVault], which is built on it): a call that gets as far as its
    request sends exactly one, and an answer with any other status raises
    a [RuntimeError] whose message ends with [Error (<status>): <text>].
    [FinalizeFile] takes 200 and 204 for success; on another status with a
    JSON body it raises a [RuntimeError] that carries the decoded body and
    not the status code.  [DeleteBlocks] on a vault object always returns. *)
Theorem failures_carry_status_and_text :
  (forall project marker, uniform_failure E [200] (ListVaults E project marker))
  /\ (forall vault_name, uniform_failure E [201] (CreateVault E vault_name))
  /\ (forall vault_name, uniform_failure E [204; 404] (GetVault E vault_name))
  /\ (forall vault, uniform_failure E [204] (DeleteVault E vault))
  /\ (forall vault, uniform_failure E [204; 404] (VaultExists E vault))
  /\ (forall vault, uniform_failure E [200] (GetVaultStatistics E vault))
  /\ (forall vault marker limit,
        uniform_failure E [200] (GetBlockList E vault marker limit))
  /\ (forall vault block, uniform_failure E [204] (HeadBlock E vault block))
  /\ (forall vault block, uniform_failure E [201] (UploadBlock E vault block))
  /\ (forall vault block_ids, uniform_failure E [201] (UploadBlocks E vault block_ids))
  /\ (forall vault block, uniform_failure E [204] (DeleteBlock E vault block))
  /\ (forall vault block, uniform_failure E [200] (DownloadBlock E vault block))
  /\ (forall vault, uniform_failure E [201] (CreateFile E vault))
  /\ (forall vault file_id, uniform_failure E [204] (DeleteFile E vault file_id))
  /\ (forall vault file_id output_file chunk_size,
        uniform_failure E [200] (DownloadFile E vault file_id output_file chunk_size))
  /\ (forall vault file_id block_ids,
        uniform_failure E [200] (AssignBlocksToFile E vault file_id block_ids))
  /\ (forall vault file_id marker limit,
        uniform_failure E [200] (GetFileBlockList E vault file_id marker limit))
  /\ (forall vault block,
        uniform_failure E [200] (DownloadBlockStorageData E vault block))
  /\ (forall vault block, uniform_failure E [204] (DeleteBlockStorage E vault block))
  /\ (forall vault marker limit,
        uniform_failure E [200] (GetBlockStorageList E vault marker limit))
  /\ (forall vault block, uniform_failure E [204] (HeadBlockStorage E vault block))
  /\ (forall vault v file_id f s,
        st_vaults s !! vault = Some v ->
        sget file_id (Files.items (Vault.files v)) = Some f ->
        let path := get_file_path (api_v1 E) (Vault.vault_id v) file_id in
        let headers := sset "X-File-Length" (PInt (File.len f))
                         (Dict.update String.eqb (auth_headers E s) []) in
        let req := mk_request POST (uri_of E path) headers None false in
        let res := reply E s req in
        st_sent (snd (FinalizeFile E vault file_id s)) = (st_sent s ++ [req])%list
        /\ (status_code res = 200 \/ status_code res = 204 ->
            fst (FinalizeFile E vault file_id s) = Return true)
        /\ (status_code res <> 200 -> status_code res <> 204 ->
            forall j, json res = Some j ->
            fst (FinalizeFile E vault file_id s)
            = Raise (RuntimeError ("Failed to finalize file. Details: " +:+ Py.str j))))
  /\ (forall vault v block_ids s,
        st_vaults s !! vault = Some v ->
        exists results, fst (DeleteBlocks E vault block_ids s) = Return results).
Proof.
  repeat match goal with |- _ /\ _ => split end; intros.
  - apply ListVaults_uniform.
  - apply CreateVault_uniform.
  - apply GetVault_uniform.
  - apply DeleteVault_uniform.
  - apply VaultExists_uniform.
  - apply GetVaultStatistics_uniform.
  - apply GetBlockList_uniform.
  - apply HeadBlock_uniform.
  - apply UploadBlock_uniform.
  - apply UploadBlocks_uniform.
  - apply DeleteBlock_uniform.
  - apply DownloadBlock_uniform.
  - apply CreateFile_uniform.
  - apply DeleteFile_uniform.
  - apply DownloadFile_uniform.
  - apply AssignBlocksToFile_uniform.
  - apply GetFileBlockList_uniform.
  - apply DownloadBlockStorageData_uniform.
  - apply DeleteBlockStorage_uniform.
  - apply GetBlockStorageList_uniform.
  - apply HeadBlockStorage_uniform.
  - apply FinalizeFile_failure; assumption.
  - unfold DeleteBlocks. mrun.
    destruct (batch_attempted vault v block_ids s) as (rs & s' & Hrun & _); [assumption|].
    exists rs. rewrite Hrun. reflexivity.
Qed.

(** ** Further properties of the client *)

(** *** The headers of the client *)

Lemma keeps_any {A X} (f : state -> X) (m : M A) : keeps (fun s => s) m -> keeps f m.
Proof. intros Hm s. rewrite (Hm s). reflexivity. Qed.

Lemma update_headers_other name :
  name <> "X-Auth-Token" -> name <> "X-Project-ID" ->
  keeps (fun s => sget name (st_headers s)) (update_headers E).
Proof.
  intros Ht Hp s. cbn [update_headers snd st_headers with_headers].
  rewrite sget_sset_ne by exact Hp. rewrite sget_sset_ne by exact Ht. reflexivity.
Qed.

Lemma check_block_ids_other name vault file_id ids :
  keeps (fun s => sget name (st_headers s)) (check_block_ids vault file_id ids).
Proof. apply keeps_any. apply check_block_ids_keeps_state. Qed.

Lemma storage_blocks_of_other name vault entries : forall acc,
  keeps (fun s => sget name (st_headers s)) (storage_blocks_of E vault entries acc).
Proof.
  induction entries as [|x entries IH]; intros acc; cbn [storage_blocks_of].
  - apply keeps_ret.
  - keeps_auto.
Qed.

Lemma GetBlockList_body_other name vault entry :
  keeps (fun s => sget name (st_headers s)) (GetBlockList_body E vault entry).
Proof. unfold GetBlockList_body. keeps_auto. Qed.

Lemma GetFileBlockList_body_other name vault file_id entry :
  keeps (fun s => sget name (st_headers s)) (GetFileBlockList_body vault file_id entry).
Proof. unfold GetFileBlockList_body. keeps_auto. Qed.

#[local] Hint Resolve update_headers_other check_block_ids_other storage_blocks_of_other
  GetBlockList_body_other GetFileBlockList_body_other : keeps.



(** *** The credentials of a request *)






































(** *** Vaults *)



End Claims.

(** ** The collection of blocks *)

Section BlocksCollection.
Context (R : Rules).








End BlocksCollection.


(** ** The statements at work on the concrete service *)

Lemma AssignBlocksToFile_submits_local_offsets_witness :
  st_vaults Demo.s0 !! 0%nat = Some Demo.v1
  /\ sget "f1" (Files.items (Vault.files Demo.v1)) = Some Demo.f1
  /\ File.offsets Demo.f1 <> []
  /\ AssignBlocksToFile (Demo.env Demo.missing) 0%nat "f1" None Demo.s0
     = (Return [PStr "b2"],
        after_request (Demo.env Demo.missing) "/v1.0/vaults/v1/files/f1/blocks"
          (mk_request POST "https://deuce.example.com/v1.0/vaults/v1/files/f1/blocks"
             [("X-Auth-Token", PStr "token"); ("X-Project-ID", PStr "project1")]
             (Some (JsonText (PList [PList [PStr "b1"; PStr "0"];
                                     PList [PStr "b2"; PStr "4096"]])))
             false)
          Demo.s0).
Proof.
  assert (H1 : st_vaults Demo.s0 !! 0%nat = Some Demo.v1) by reflexivity.
  assert (H2 : sget "f1" (Files.items (Vault.files Demo.v1)) = Some Demo.f1) by reflexivity.
  assert (H3 : File.offsets Demo.f1 <> []) by (vm_compute; discriminate).
  split; [exact H1|]. split; [exact H2|]. split; [exact H3|].
  exact (proj2 (AssignBlocksToFile_submits_local_offsets (Demo.env Demo.missing)
                  0%nat Demo.v1 "f1" Demo.f1 Demo.s0 H1 H2 H3)
               [PStr "b2"] eq_refl eq_refl).
Defined.

Lemma AssignBlocksToFile_preconditions_fail_locally_witness :
  st_vaults Demo.s0 !! 0%nat = Some Demo.v1
  /\ sget "f1" (Files.items (Vault.files Demo.v1)) = Some Demo.f1
  /\ Forall (assigned Demo.f1) [("b1", PInt 0)]
  /\ recorded_at Demo.f1 (PStr "4096") = Some (PStr "b2")
  /\ PStr "b2" <> PStr "bX"
  /\ exists msg,
       AssignBlocksToFile (Demo.env Demo.missing) 0%nat "f1"
         (Some [("b1", PInt 0); ("bX", PStr "4096")]) Demo.s0
       = (Raise (ValueError msg), Demo.s0).
Proof.
  assert (H1 : st_vaults Demo.s0 !! 0%nat = Some Demo.v1) by reflexivity.
  assert (H2 : sget "f1" (Files.items (Vault.files Demo.v1)) = Some Demo.f1) by reflexivity.
  assert (H3 : Forall (assigned Demo.f1) [("b1", PInt 0)]).
  { constructor; [reflexivity|constructor]. }
  assert (H4 : recorded_at Demo.f1 (PStr "4096") = Some (PStr "b2")) by reflexivity.
  assert (H5 : PStr "b2" <> PStr "bX") by discriminate.
  repeat (split; [assumption|]).
  exact (proj2 (proj2 (proj2 (AssignBlocksToFile_preconditions_fail_locally
                                (Demo.env Demo.missing) 0%nat Demo.v1 "f1" Demo.s0 H1))
                 Demo.f1 [("b1", PInt 0)] "bX" (PStr "4096") [] H2 H3)
               (PStr "b2") H4 H5).
Defined.

Lemma listing_marker_follows_continuation_witness :
  GetBlockList (Demo.env Demo.page) 0%nat (Some "b2") (Some 2) Demo.s0
  = (Return ["b3"; "b4"],
     snd (GetBlockList (Demo.env Demo.page) 0%nat (Some "b2") (Some 2) Demo.s0))
  /\ carries_marker (Demo.env Demo.page) Demo.page "b5"
  /\ exists v',
       st_vaults (snd (GetBlockList (Demo.env Demo.page) 0%nat (Some "b2") (Some 2) Demo.s0))
         !! 0%nat = Some v'
       /\ Blocks.marker (Vault.blocks v') = Some "b5"
       /\ Vault.storageblocks v' = Vault.storageblocks Demo.v1
       /\ Vault.files v' = Vault.files Demo.v1.
Proof.
  assert (H1 : GetBlockList (Demo.env Demo.page) 0%nat (Some "b2") (Some 2) Demo.s0
               = (Return ["b3"; "b4"],
                  snd (GetBlockList (Demo.env Demo.page) 0%nat (Some "b2") (Some 2) Demo.s0)))
    by (vm_compute; reflexivity).
  assert (H2 : carries_marker (Demo.env Demo.page) Demo.page "b5").
  { eexists _, _, _. repeat split; vm_compute; reflexivity. }
  split; [exact H1|]. split; [exact H2|].
  destruct (proj1 (listing_marker_follows_continuation (Demo.env Demo.page) 0%nat
                     (Some "b2") (Some 2) Demo.s0) _ _ H1)
    as (req & v & v' & Hv & _ & _ & Hv' & Hafter & Hsb & Hf).
  assert (Hv1 : v = Demo.v1) by (change (Some Demo.v1 = Some v) in Hv; congruence).
  exists v'. split; [exact Hv'|]. split; [exact (proj1 Hafter "b5" H2)|].
  rewrite <- Hv1. split; assumption.
Defined.

(** The failure of [FinalizeFile] on a 409 with a JSON body does not
    carry the status code: its message is not [Error (409): ...] after any
    label. *)
Lemma FinalizeFile_failure_drops_the_status :
  status_code Demo.conflict <> 200
  /\ status_code Demo.conflict <> 204
  /\ fst (FinalizeFile (Demo.env Demo.conflict) 0%nat "f1" Demo.s0)
     = Raise (RuntimeError "Failed to finalize file. Details: [4096, 8192]")
  /\ ~ (exists label,
          fst (FinalizeFile (Demo.env Demo.conflict) 0%nat "f1" Demo.s0)
          = Raise (RuntimeError (error_text label Demo.conflict))).
Proof.
  split; [vm_compute; discriminate|]. split; [vm_compute; discriminate|].
  split; [vm_compute; reflexivity|].
  intros [label H].
  assert (Hrun : fst (FinalizeFile (Demo.env Demo.conflict) 0%nat "f1" Demo.s0)
                 = Raise (RuntimeError "Failed to finalize file. Details: [4096, 8192]"))
    by (vm_compute; reflexivity).
  rewrite Hrun in H. injection H as H.
  assert (Hend : ends_with "Error (409): [4096, 8192]"
                   "Failed to finalize file. Details: [4096, 8192]" = true).
  { rewrite H. unfold error_text.
    change (pretty (status_code Demo.conflict)) with "409".
    change (text Demo.conflict) with "[4096, 8192]".
    change ("Error (" +:+ "409" +:+ "): " +:+ "[4096, 8192]")
      with "Error (409): [4096, 8192]".
    apply ends_with_append. }
  vm_compute in Hend. discriminate Hend.
Qed.

Lemma failures_carry_status_and_text_witness :
  st_vaults Demo.s0 !! 0%nat = Some Demo.v1
  /\ sget "f1" (Files.items (Vault.files Demo.v1)) = Some Demo.f1
  /\ fst (FinalizeFile (Demo.env Demo.conflict) 0%nat "f1" Demo.s0)
     = Raise (RuntimeError ("Failed to finalize file. Details: "
                            +:+ Py.str (PList [PInt 4096; PInt 8192])))
  /\ uniform_failure (Demo.env Demo.server_error) [204]
       (DeleteFile (Demo.env Demo.server_error) 0%nat "f1").
Proof.
  assert (H1 : st_vaults Demo.s0 !! 0%nat = Some Demo.v1) by reflexivity.
  assert (H2 : sget "f1" (Files.items (Vault.files Demo.v1)) = Some Demo.f1) by reflexivity.
  split; [exact H1|]. split; [exact H2|]. split.
  - destruct (failures_carry_status_and_text (Demo.env Demo.conflict))
      as (_ & _ & _ & _ & _ & _ & _ & _ & _ & _ & _ & _ & _ & _ & _ & _ & _ & _ & _ & _ & _ & H & _).
    refine (proj2 (proj2 (H 0%nat Demo.v1 "f1" Demo.f1 Demo.s0 H1 H2)) _ _ _ eq_refl).
    + vm_compute; discriminate.
    + vm_compute; discriminate.
  - destruct (failures_carry_status_and_text (Demo.env Demo.server_error))
      as (_ & _ & _ & _ & _ & _ & _ & _ & _ & _ & _ & _ & _ & H & _).
    apply H.
Defined.

Lemma vault_status_state_machine_witness :
  status_code Demo.created = 201
  /\ (exists v s',
        CreateVault (Demo.env Demo.created) "v2" Demo.s0 = (Return 1%nat, s')
        /\ st_vaults s' !! 1%nat = Some v
        /\ Vault.status v = created
        /\ Vault.vault_id v = "v2")
  /\ (exists s',
        VaultExists (Demo.env Demo.no_content) (VaultObject 0%nat) Demo.s0 = (Return true, s')
        /\ st_vaults s' = [Vault.set_status valid Demo.v1])
  /\ (exists s',
        VaultExists (Demo.env Demo.not_found) (VaultObject 0%nat) Demo.s0 = (Return false, s')
        /\ st_vaults s' = [Vault.set_status invalid Demo.v1])
  /\ (exists s',
        DeleteVault (Demo.env Demo.no_content) 0%nat Demo.s0 = (Return true, s')
        /\ st_vaults s' = [Vault.set_status deleted Demo.v1]).
Proof.
  assert (H1 : st_vaults Demo.s0 !! 0%nat = Some Demo.v1) by reflexivity.
  split; [reflexivity|]. split; [|split; [|split]].
  - exact (proj1 (vault_status_state_machine (Demo.env Demo.created) Demo.s0)
             "v2" eq_refl eq_refl eq_refl).
  - exact (proj1 (proj1 (proj2 (vault_status_state_machine (Demo.env Demo.no_content)
                                  Demo.s0))
                    0%nat Demo.v1 H1) eq_refl).
  - exact (proj2 (proj1 (proj2 (vault_status_state_machine (Demo.env Demo.not_found)
                                  Demo.s0))
                    0%nat Demo.v1 H1) eq_refl).
  - exact (proj2 (proj2 (vault_status_state_machine (Demo.env Demo.no_content) Demo.s0))
             0%nat Demo.v1 H1 eq_refl).
Defined.

Lemma listing_query_marker_then_limit_witness :
  st_vaults Demo.s0 !! 0%nat = Some Demo.v1
  /\ Some "b2" <> None
  /\ Files.contains "f1" (Vault.files Demo.v1) = true
  /\ map req_uri
       (st_sent (snd (GetBlockList (Demo.env Demo.page) 0%nat (Some "b2") (Some 2) Demo.s0)))
     = ["https://deuce.example.com/v1.0/vaults/v1/blocks?marker=b2,limit=2"]
  /\ map req_uri
       (st_sent (snd (GetFileBlockList (Demo.env Demo.offsets_page) 0%nat "f1"
                        (Some "b2") (Some 2) Demo.s0)))
     = ["https://deuce.example.com/v1.0/vaults/v1/files/f1/blocks?marker=b2,limit=2"]
  /\ map req_uri
       (st_sent (snd (GetBlockStorageList (Demo.env Demo.page) 0%nat
                        (Some "b2") (Some 2) Demo.s0)))
     = ["https://deuce.example.com/v1.0/vaults/v1/storage/blocks?marker=b2&limit=2"].
Proof.
  assert (H1 : st_vaults Demo.s0 !! 0%nat = Some Demo.v1) by reflexivity.
  assert (H2 : Some "b2" <> @None string) by discriminate.
  assert (H3 : Files.contains "f1" (Vault.files Demo.v1) = true) by reflexivity.
  split; [exact H1|]. split; [exact H2|]. split; [exact H3|]. split; [|split].
  - rewrite (proj1 (listing_query_marker_then_limit (Demo.env Demo.page) 0%nat Demo.v1
                      (Some "b2") (Some 2) Demo.s0 H1 (or_introl H2))).
    vm_compute. reflexivity.
  - rewrite (proj1 (proj2 (listing_query_marker_then_limit (Demo.env Demo.offsets_page)
                             0%nat Demo.v1 (Some "b2") (Some 2) Demo.s0 H1 (or_introl H2)))
               "f1" H3).
    vm_compute. reflexivity.
  - rewrite (proj1 (proj2 (proj2 (listing_query_marker_then_limit (Demo.env Demo.page)
                                    0%nat Demo.v1 (Some "b2") (Some 2) Demo.s0 H1
                                    (or_introl H2))))).
    vm_compute. reflexivity.
Defined.

Lemma DeleteBlocks_is_best_effort_witness :
  st_vaults Demo.s0 !! 0%nat = Some Demo.v1
  /\ (exists results s',
        DeleteBlocks (Demo.env Demo.no_content) 0%nat ["b1"; "zz"; "b2"] Demo.s0
        = (Return results, s')
        /\ results = [("b1", true); ("zz", false); ("b2", true)]
        /\ map req_uri (st_sent s')
           = ["https://deuce.example.com/v1.0/vaults/v1/blocks/b1";
              "https://deuce.example.com/v1.0/vaults/v1/blocks/b2"])
  /\ (exists results s',
        DeleteBlocks (Demo.env Demo.server_error) 0%nat ["b1"; "zz"; "b2"] Demo.s0
        = (Return results, s')
        /\ results = [("b1", false); ("zz", false); ("b2", false)]
        /\ map req_verb (st_sent s') = [DELETE; DELETE]).
Proof.
  assert (H1 : st_vaults Demo.s0 !! 0%nat = Some Demo.v1) by reflexivity.
  split; [exact H1|]. split.
  - destruct (DeleteBlocks_is_best_effort (Demo.env Demo.no_content) 0%nat Demo.v1
                ["b1"; "zz"; "b2"] Demo.s0 H1) as (results & s' & Hrun & _ & Hout & _).
    exists results, s'. split; [exact Hrun|].
    match type of Hout with _ = ?x => set (out := x) in Hout; vm_compute in out end.
    subst out. injection Hout as -> Hsent. rewrite Hsent. split; reflexivity.
  - destruct (DeleteBlocks_is_best_effort (Demo.env Demo.server_error) 0%nat Demo.v1
                ["b1"; "zz"; "b2"] Demo.s0 H1) as (results & s' & Hrun & _ & Hout & _).
    exists results, s'. split; [exact Hrun|].
    match type of Hout with _ = ?x => set (out := x) in Hout; vm_compute in out end.
    subst out. injection Hout as -> Hsent. rewrite Hsent. split; reflexivity.
Defined.

Lemma DeleteBlocks_skips_unknown_ids_witness :
  st_vaults Demo.s0 !! 0%nat = Some Demo.v1
  /\ sget "zz" (Blocks.items (Vault.blocks Demo.v1)) = None
  /\ do_delete_block (Demo.env Demo.no_content) 0%nat "zz" Demo.s0
     = (Return ("zz", false), Demo.s0).
Proof.
  assert (H1 : st_vaults Demo.s0 !! 0%nat = Some Demo.v1) by reflexivity.
  assert (H2 : sget "zz" (Blocks.items (Vault.blocks Demo.v1)) = None) by reflexivity.
  split; [exact H1|]. split; [exact H2|].
  exact (proj1 (DeleteBlocks_skips_unknown_ids (Demo.env Demo.no_content) 0%nat Demo.v1
                  "zz" Demo.s0 H1 H2)).
Defined.

Lemma VaultExists_by_name_is_read_only_witness :
  st_vaults Demo.s0 !! 0%nat = Some Demo.v1
  /\ Vault.vault_id Demo.v1 = "v1"
  /\ map req_uri
       (st_sent (snd (VaultExists (Demo.env Demo.no_content) (VaultObject 0%nat) Demo.s0)))
     = ["https://deuce.example.com/v1.0/vaults/v1"]
  /\ fst (VaultExists (Demo.env Demo.no_content) (VaultName "v1") Demo.s0) = Return true
  /\ entities (snd (VaultExists (Demo.env Demo.no_content) (VaultName "v1") Demo.s0))
     = entities Demo.s0.
Proof.
  assert (H1 : st_vaults Demo.s0 !! 0%nat = Some Demo.v1) by reflexivity.
  split; [exact H1|]. split; [reflexivity|].
  destruct (VaultExists_by_name_is_read_only (Demo.env Demo.no_content) "v1" Demo.s0)
    as (out & Hrun & Hv & Hb & Hp & H204 & H404 & Hobj).
  split; [|split].
  - rewrite (Hobj 0%nat Demo.v1 H1 eq_refl). vm_compute. reflexivity.
  - rewrite Hrun. exact (proj2 H204 eq_refl).
  - rewrite Hrun. unfold entities. cbn [snd]. rewrite Hv, Hb, Hp. reflexivity.
Defined.

(** ** The further statements at work on the concrete service *)








